(** * Smarter Dog grooming salon: calendar resolution, capacity ledger,
      availability query and booking commit.

    A shallow embedding of [smarter_dog_refactored.py] and the properties of
    its specification.  The Python integers are modelled by [Z], the strings
    by [string], the nested dictionary [CURRENT_BOOKINGS] by a finite map of
    finite maps, and the two tools by computations in a state-and-exception
    monad over that dictionary. *)

From Stdlib Require Import ZArith Ascii String List Bool Lia.
From stdpp Require Import base option list gmap strings.

Local Open Scope string_scope.
Local Open Scope list_scope.
Local Open Scope Z_scope.

(** ** Exceptions and results *)

(** The exceptions the program can raise.  [ValueError] is what the booking
    tool raises itself (with its message); [LibValueError] is the
    [ValueError] raised inside [datetime] ([fromisoformat] on a string that
    is not a date, [date(y, m, d)] on fields out of range);
    [LibOverflowError] is the [OverflowError] of [date + timedelta] leaving
    the range of [date].  [LoopBound] is not a Python exception: it marks a
    [while] loop of the model that used up its iteration budget. *)
Inductive exn : Type :=
| ValueError (msg : string)
| LibValueError
| LibOverflowError
| LoopBound.

Inductive res (A : Type) : Type :=
| Ok (a : A)
| Raise (e : exn).
Arguments Ok {A} a.
Arguments Raise {A} e.

(** Sequencing: an exception in the first computation skips the rest.
    Written [x ← r; k] below. *)
#[global] Instance res_bind : MBind res := fun A B k r =>
  match r with
  | Ok a => k a
  | Raise e => Raise e
  end.

#[global] Instance res_ret : MRet res := fun A a => Ok a.

(** ** The [datetime] and [calendar] library functions the program calls *)

Module Calendar.

(** A [datetime.date]: the three fields, proleptic Gregorian. *)
Record date : Type := Date { year : Z; month : Z; day : Z }.

Definition MINYEAR : Z := 1.
Definition MAXYEAR : Z := 9999.
(** [date(9999, 12, 31).toordinal()] *)
Definition MAXORDINAL : Z := 3652059.

Definition is_leap (y : Z) : bool :=
  (y mod 4 =? 0) && (negb (y mod 100 =? 0) || (y mod 400 =? 0)).

Definition DAYS_IN_MONTH (m : Z) : Z :=
  match m with
  | 1 => 31 | 2 => 28 | 3 => 31 | 4 => 30 | 5 => 31 | 6 => 30
  | 7 => 31 | 8 => 31 | 9 => 30 | 10 => 31 | 11 => 30 | 12 => 31
  | _ => -1
  end.

Definition DAYS_BEFORE_MONTH (m : Z) : Z :=
  match m with
  | 1 => 0 | 2 => 31 | 3 => 59 | 4 => 90 | 5 => 120 | 6 => 151
  | 7 => 181 | 8 => 212 | 9 => 243 | 10 => 273 | 11 => 304 | 12 => 334
  | _ => -1
  end.

Definition days_before_year (y : Z) : Z :=
  let y := y - 1 in y * 365 + y / 4 - y / 100 + y / 400.

Definition days_in_month (y m : Z) : Z :=
  if (m =? 2) && is_leap y then 29 else DAYS_IN_MONTH m.

Definition days_before_month (y m : Z) : Z :=
  DAYS_BEFORE_MONTH m + (if (2 <? m) && is_leap y then 1 else 0).

(** The check [date(y, m, d)] makes on its fields. *)
Definition valid_dateb (d : date) : bool :=
  (MINYEAR <=? year d) && (year d <=? MAXYEAR) &&
  (1 <=? month d) && (month d <=? 12) &&
  (1 <=? day d) && (day d <=? days_in_month (year d) (month d)).

Definition valid_date (d : date) : Prop := valid_dateb d = true.

(** [date(y, m, d)] *)
Definition date_new (y m d : Z) : res date :=
  if valid_dateb (Date y m d) then Ok (Date y m d) else Raise LibValueError.

(** [date.toordinal()]: January 1 of year 1 is day 1. *)
Definition toordinal (d : date) : Z :=
  days_before_year (year d) + days_before_month (year d) (month d) + day d.

Definition DI400Y : Z := 146097.
Definition DI100Y : Z := 36524.
Definition DI4Y : Z := 1461.

(** The end of [_ord2ymd]: month and day of month of the [n]-th day
    (from 0) of a year.  The month is first estimated, then corrected. *)
Definition month_day (n : Z) (leapyear : bool) : Z * Z :=
  let m := Z.shiftr (n + 50) 5 in
  let preceding :=
    DAYS_BEFORE_MONTH m + (if (2 <? m) && leapyear then 1 else 0) in
  if n <? preceding then
    let m := m - 1 in
    let preceding :=
      preceding -
      (DAYS_IN_MONTH m + (if (m =? 2) && leapyear then 1 else 0)) in
    (m, n - preceding + 1)
  else (m, n - preceding + 1).

(** [date.fromordinal(n)], for [1 <= n <= MAXORDINAL]: the 400-year,
    100-year, 4-year and 1-year cycles before day [n], then the month
    and the day. *)
Definition fromordinal (n : Z) : date :=
  let n := n - 1 in
  let n400 := n / DI400Y in
  let n := n mod DI400Y in
  let n100 := n / DI100Y in
  let n := n mod DI100Y in
  let n4 := n / DI4Y in
  let n := n mod DI4Y in
  let n1 := n / 365 in
  let n := n mod 365 in
  let y := n400 * 400 + 1 + n100 * 100 + n4 * 4 + n1 in
  if (n1 =? 4) || (n100 =? 4) then Date (y - 1) 12 31
  else
    let leapyear := (n1 =? 3) && (negb (n4 =? 24) || (n100 =? 3)) in
    let '(m, d) := month_day n leapyear in
    Date y m d.

(** [date.weekday()]: Monday is 0, Sunday is 6. *)
Definition weekday (d : date) : Z := (toordinal d + 6) mod 7.

(** [d + timedelta(days=k)] *)
Definition date_add (d : date) (k : Z) : res date :=
  let o := toordinal d + k in
  if (0 <? o) && (o <=? MAXORDINAL) then Ok (fromordinal o)
  else Raise LibOverflowError.

(** [d1 == d2] and [d1 <= d2]: comparison of the field triples. *)
Definition date_eqb (d1 d2 : date) : bool :=
  (year d1 =? year d2) && (month d1 =? month d2) && (day d1 =? day d2).

Definition date_leb (d1 d2 : date) : bool :=
  (year d1 <? year d2) ||
  ((year d1 =? year d2) &&
   ((month d1 <? month d2) ||
    ((month d1 =? month d2) && (day d1 <=? day d2)))).

(** [d in s] for a set of dates, kept as the list of its elements. *)
Definition date_in (d : date) (s : list date) : bool :=
  existsb (date_eqb d) s.

(** [calendar.monthrange(y, m)[1]], for a month from 1 to 12. *)
Definition monthrange_last (y m : Z) : Z :=
  DAYS_IN_MONTH m + (if (m =? 2) && is_leap y then 1 else 0).

(** Decimal digits, for [isoformat] and [fromisoformat]. *)
Definition digit_char (n : Z) : ascii :=
  ascii_of_nat (48 + Z.to_nat (n mod 10)).

Definition char_digit (c : ascii) : option Z :=
  let n := Z.of_nat (nat_of_ascii c) in
  if (48 <=? n) && (n <=? 57) then Some (n - 48) else None.

Definition pad2 (n : Z) (rest : string) : string :=
  String (digit_char (n / 10)) (String (digit_char n) rest).

Definition pad4 (n : Z) (rest : string) : string :=
  String (digit_char (n / 1000)) (String (digit_char (n / 100))
    (pad2 n rest)).

(** [date.isoformat()]: ["%04d-%02d-%02d"]. *)
Definition isoformat (d : date) : string :=
  pad4 (year d) (String "-" (pad2 (month d) (String "-" (pad2 (day d) "")))).

(** [date.strftime('%A')] in the C locale. *)
Definition strftime_A (d : date) : string :=
  match weekday d with
  | 0 => "Monday" | 1 => "Tuesday" | 2 => "Wednesday" | 3 => "Thursday"
  | 4 => "Friday" | 5 => "Saturday" | _ => "Sunday"
  end.

(** [datetime.fromisoformat(s).date()].  The model reads the calendar-date
    form [YYYY-MM-DD], which is what [isoformat] writes and what the tools'
    schema asks for, and raises on every other string and on fields that
    are not a date.  The library also reads a date followed by a time of
    day (and, in later versions, the basic and week forms); [.date()] takes
    each of those to one of the dates read here, and the resolver and the
    commit use the string only through that date
    ([resolve_by_parsed_date]). *)
Definition fromisoformat (s : string) : res date :=
  match s with
  | String y1 (String y2 (String y3 (String y4 (String "-"
      (String m1 (String m2 (String "-"
        (String d1 (String d2 EmptyString))))))))) =>
      match char_digit y1, char_digit y2, char_digit y3, char_digit y4,
            char_digit m1, char_digit m2, char_digit d1, char_digit d2 with
      | Some a, Some b, Some c, Some d, Some e, Some f, Some g, Some h =>
          date_new (a * 1000 + b * 100 + c * 10 + d) (e * 10 + f) (g * 10 + h)
      | _, _, _, _, _, _, _, _ => Raise LibValueError
      end
  | _ => Raise LibValueError
  end.

End Calendar.
Import Calendar.

(** ** Constants *)

Definition SLOT_TIMES : list string :=
  ["08:30"; "09:00"; "09:30"; "10:00"; "10:30";
   "11:00"; "11:30"; "12:00"; "12:30"; "13:00"].

(** The set [{0, 1, 2}]: Monday, Tuesday, Wednesday. *)
Definition OPEN_WEEKDAYS : list Z := [0; 1; 2].

Definition CAPACITY_UNITS : Z := 2.

(** [Literal["small", "medium", "large"]] *)
Inductive dog_size : Type := small | medium | large.

Definition DOG_SIZE_UNITS (s : dog_size) : Z :=
  match s with
  | small => 1
  | medium => 1
  | large => 2
  end.

(** The bookings dictionary: ISO date, then slot time, then units used. *)
Abbreviation ledger := (gmap string (gmap string Z)).

Definition CURRENT_BOOKINGS : ledger :=
  <["2024-07-10" := {["09:00" := 2]}]>
    (<["2024-07-17" := {["10:30" := 1]}]> ∅).

(** [x in s] for a set of integers. *)
Definition Z_in (x : Z) (s : list Z) : bool := existsb (Z.eqb x) s.

(** [x in t] for a tuple of strings. *)
Definition string_in (x : string) (t : list string) : bool :=
  existsb (String.eqb x) t.

(** ** Business logic helpers *)

Definition _parse_date (value : string) : res date := fromisoformat value.

(** The loop [while candidate.weekday() != target: candidate += step], with
    a budget of iterations.  Seven candidates cover every weekday. *)
Fixpoint seek_weekday (budget : nat) (step target : Z) (candidate : date)
  : res date :=
  match budget with
  | O => Raise LoopBound
  | S budget' =>
      if weekday candidate =? target then Ok candidate
      else
        next ← date_add candidate step;
        seek_weekday budget' step target next
  end.

Definition WEEK : nat := 7%nat.

Definition _last_weekday_of_month (y m wd : Z) : res date :=
  let last_day := monthrange_last y m in
  candidate ← date_new y m last_day;
  seek_weekday WEEK (-1) wd candidate.

(** The [lru_cache] only memoises; the set is kept as the list of its
    elements in the order they are added. *)
Definition _bank_holidays_for_year (y : Z) : res (list date) :=
  late_may ← _last_weekday_of_month y 5 0;
  late_august ← _last_weekday_of_month y 8 0;
  let holidays := [late_may; late_august] in
  christmas ← date_new y 12 25;
  let holidays := holidays ++ [christmas] in
  if weekday christmas =? 5 then
    substitute ← date_add christmas 2;
    mret (holidays ++ [substitute])
  else if weekday christmas =? 6 then
    substitute ← date_add christmas 1;
    mret (holidays ++ [substitute])
  else mret holidays.

Definition _is_bank_holiday (d : date) : res bool :=
  holidays ← _bank_holidays_for_year (year d);
  mret (date_in d holidays).

(** Lines 169-172: the first Monday after December 26 and the two days
    after it. *)
Definition shutdown_window (dec26 : date) : res (list date) :=
  first_monday ← date_add dec26 1;
  first_monday ← seek_weekday WEEK 1 0 first_monday;
  mapM (fun i => date_add first_monday i) [0; 1; 2].

Definition _is_christmas_shutdown (d : date) : res bool :=
  if (month d =? 12) && Z_in (day d) [24; 25; 26] then mret true
  else
    dec26 ← date_new (year d) 12 26;
    if date_leb d dec26 then mret false
    else
      window ← shutdown_window dec26;
      mret (date_in d window).

Definition bank_holiday_note (d new_day : date) : string :=
  isoformat d +:+ " is a bank holiday, booking moved to " +:+
  isoformat new_day +:+ ".".

Definition _shift_bank_holiday (d : date) : res (date * list string * bool) :=
  if Z_in (weekday d) OPEN_WEEKDAYS then
    holiday ← _is_bank_holiday d;
    if holiday : bool then
      new_day ← date_add d (3 - weekday d);
      mret (new_day, [bank_holiday_note d new_day], true)
    else mret (d, [], false)
  else mret (d, [], false).

Definition weekday_closed_note (d : date) : string :=
  isoformat d +:+ " falls on " +:+ strftime_A d +:+ ", salon closed.".

Definition shutdown_note (d : date) : string :=
  isoformat d +:+ " is during the Christmas shutdown.".

Definition _ensure_operating_day (d : date) (force_open : bool)
  : res (date * list string) :=
  forced ←
    (if force_open && (weekday d =? 3) then
       shut ← _is_christmas_shutdown d; mret (negb shut)
     else mret false);
  if forced : bool then mret (d, [])
  else if negb (Z_in (weekday d) OPEN_WEEKDAYS) then
    mret (d, [weekday_closed_note d])
  else
    shut ← _is_christmas_shutdown d;
    if shut : bool then mret (d, [shutdown_note d])
    else mret (d, []).

Definition is_empty {A : Type} (l : list A) : bool :=
  match l with [] => true | _ :: _ => false end.

(** The part of [_resolve_operating_day] after the date is parsed. *)
Definition resolve_date (requested : date) : res (date * list string * bool) :=
  '(d, notes, force_open) ← _shift_bank_holiday requested;
  '(operating_day, closure_notes) ← _ensure_operating_day d force_open;
  let combined_notes := notes ++ closure_notes in
  let is_open :=
    is_empty closure_notes &&
    (force_open || Z_in (weekday operating_day) OPEN_WEEKDAYS) in
  mret (operating_day, combined_notes, is_open).

Definition _resolve_operating_day (requested_date : string)
  : res (date * list string * bool) :=
  requested ← _parse_date requested_date;
  resolve_date requested.

(** ** The tools: computations over the shared bookings dictionary *)

(** A computation reads and may update the dictionary, and returns a value
    or raises; an update made before an exception stays. *)
Definition M (A : Type) : Type := ledger → ledger * res A.

#[global] Instance M_ret : MRet M := fun A a L => (L, Ok a).

#[global] Instance M_bind : MBind M := fun A B k c L =>
  match c L with
  | (L', Ok a) => k a L'
  | (L', Raise e) => (L', Raise e)
  end.

Definition lift {A : Type} (r : res A) : M A := fun L => (L, r).
Definition raise {A : Type} (e : exn) : M A := fun L => (L, Raise e).
Definition get_ledger : M ledger := fun L => (L, Ok L).

(** [CURRENT_BOOKINGS.get(day_key, {}).get(slot, 0)] *)
Definition units_used (L : ledger) (day_key slot : string) : Z :=
  default 0 (default ∅ (L !! day_key) !! slot).

Definition _slot_has_capacity (d : date) (slot : string) (units_needed : Z)
  : M bool :=
  let day_key := isoformat d in
  L ← get_ledger;
  let used := units_used L day_key slot in
  mret (used + units_needed <=? CAPACITY_UNITS).

(** [[x for x in l if p(x)]] where [p] is a computation. *)
Fixpoint filterM {A : Type} (p : A → M bool) (l : list A) : M (list A) :=
  match l with
  | [] => mret []
  | x :: l' =>
      keep ← p x;
      rest ← filterM p l';
      mret (if keep : bool then x :: rest else rest)
  end.

(** The dictionary [get_available_slots] returns. *)
Record availability : Type := Availability {
  av_requested_date : string;
  av_operating_date : string;
  av_available_slots : list string;
  av_notes : list string
}.

Definition get_available_slots (requested_date : string) (size : dog_size)
  : M availability :=
  '(operating_day, notes, is_open) ← lift (_resolve_operating_day requested_date);
  if negb is_open then
    let reasons :=
      if is_empty notes
      then [isoformat operating_day +:+ " is outside operating days."]
      else notes in
    mret (Availability requested_date (isoformat operating_day) [] reasons)
  else
    let units_needed := DOG_SIZE_UNITS size in
    available ←
      filterM (fun slot => _slot_has_capacity operating_day slot units_needed)
              SLOT_TIMES;
    mret (Availability requested_date (isoformat operating_day) available notes).

(** The dictionary [book_grooming_appointment] returns. *)
Record booking : Type := Booking {
  bk_dog_name : string;
  bk_dog_size : dog_size;
  bk_date : string;
  bk_time : string;
  bk_customer : string;
  bk_phone : string;
  bk_status : string;
  bk_notes : list string
}.

(** [CURRENT_BOOKINGS.setdefault(day_key, {})]: the day's dictionary, put
    in place when the day has none. *)
Definition setdefault (day_key : string) : M (gmap string Z) := fun L =>
  match L !! day_key with
  | Some day_ledger => (L, Ok day_ledger)
  | None => (<[day_key := ∅]> L, Ok ∅)
  end.

(** [ledger[slot] = v], where [ledger] is the dictionary stored under
    [day_key]. *)
Definition set_slot (day_key slot : string) (v : Z) : M unit := fun L =>
  (<[day_key := <[slot := v]> (default ∅ (L !! day_key))]> L, Ok tt).

Definition closed_message (operating_day : date) : string :=
  "Salon closed on " +:+ isoformat operating_day.
Definition invalid_time_message : string :=
  "Requested time is outside operating hours.".
Definition slot_full_message : string :=
  "Requested slot is full; pick another time.".

Definition book_grooming_appointment
  (dog_name : string) (size : dog_size) (requested_date requested_time : string)
  (customer_name contact_number : string) : M booking :=
  '(operating_day, notes, is_open) ← lift (_resolve_operating_day requested_date);
  if negb is_open then raise (ValueError (closed_message operating_day))
  else if negb (string_in requested_time SLOT_TIMES) then
    raise (ValueError invalid_time_message)
  else
    let units_needed := DOG_SIZE_UNITS size in
    let day_key := isoformat operating_day in
    day_ledger ← setdefault day_key;
    let used := default 0 (day_ledger !! requested_time) in
    if CAPACITY_UNITS <? used + units_needed then
      raise (ValueError slot_full_message)
    else
      _ ← set_slot day_key requested_time (used + units_needed);
      mret (Booking dog_name size (isoformat operating_day) requested_time
                    customer_name contact_number "Booked" notes).

(** ** Sequences of commit attempts *)

(** The fields of a booking request ([BookingRequest]). *)
Record booking_request : Type := BookingRequest {
  rq_dog_name : string;
  rq_dog_size : dog_size;
  rq_requested_date : string;
  rq_requested_time : string;
  rq_customer_name : string;
  rq_contact_number : string
}.

Definition commit (rq : booking_request) : M booking :=
  book_grooming_appointment
    (rq_dog_name rq) (rq_dog_size rq) (rq_requested_date rq)
    (rq_requested_time rq) (rq_customer_name rq) (rq_contact_number rq).

(** The dictionary after a sequence of commit attempts, successful or
    not, made one after the other. *)
Definition ledger_after (rqs : list booking_request) (L : ledger) : ledger :=
  fold_left (fun L rq => fst (commit rq L)) rqs L.

(** The capacity bound on every entry of the dictionary. *)
Definition within_capacity (L : ledger) : Prop :=
  ∀ day_key slot, 0 ≤ units_used L day_key slot ≤ CAPACITY_UNITS.

(** ** The stub runner ([agents_stub.py]) *)

(** What the stub's booking handler can raise: its own [RuntimeError], the
    [KeyError] of [DOG_SIZE_UNITS[dog_size]] on a size that is not a key,
    or an exception that comes out of one of the two tools. *)
Inductive runner_exn : Type :=
| RuntimeError (msg : string)
| KeyError (key : string)
| ToolError (e : exn).

Definition no_slots_message : string :=
  "No slots available; booking cannot be completed.".

(** The dictionary [_parse_booking_prompt] returns: every field is the
    text the prompt holds, the size included (the regular expression
    ignores case and keeps the text as typed). *)
Record prompt_fields : Type := PromptFields {
  pf_dog_name : string;
  pf_dog_size : string;
  pf_requested_date : string;
  pf_requested_time : string;
  pf_customer_name : string;
  pf_contact_number : string
}.

(** The keys of [DOG_SIZE_UNITS]. *)
Definition dog_size_of_key (key : string) : option dog_size :=
  if String.eqb key "small" then Some small
  else if String.eqb key "medium" then Some medium
  else if String.eqb key "large" then Some large
  else None.

(** [get_available_slots] called with the size as a string, which the
    stub's [function_tool] does not validate.  On a key of
    [DOG_SIZE_UNITS] it is the tool above.  On any other string it runs
    as far as the lookup [DOG_SIZE_UNITS[dog_size]] of line 252, which
    comes after the return for a closed day. *)
Definition get_available_slots_untyped (requested_date size : string)
  (L : ledger) : ledger * (runner_exn + availability) :=
  match dog_size_of_key size with
  | Some sz =>
      match get_available_slots requested_date sz L with
      | (L1, Ok response) => (L1, inr response)
      | (L1, Raise e) => (L1, inl (ToolError e))
      end
  | None =>
      match _resolve_operating_day requested_date with
      | Raise e => (L, inl (ToolError e))
      | Ok (operating_day, notes, is_open) =>
          if negb is_open then
            let reasons :=
              if is_empty notes
              then [isoformat operating_day +:+ " is outside operating days."]
              else notes in
            (L, inr (Availability requested_date (isoformat operating_day)
                                  [] reasons))
          else (L, inl (KeyError size))
      end
  end.

(** [book_grooming_appointment] called with the size as a string: on a
    string that is not a key it runs as far as the lookup of line 303,
    after the closed-day and invalid-time tests and before any write. *)
Definition book_grooming_appointment_untyped
  (dog_name size requested_date requested_time : string)
  (customer_name contact_number : string)
  (L : ledger) : ledger * (runner_exn + booking) :=
  match dog_size_of_key size with
  | Some sz =>
      match book_grooming_appointment dog_name sz requested_date
              requested_time customer_name contact_number L with
      | (L1, Ok booked) => (L1, inr booked)
      | (L1, Raise e) => (L1, inl (ToolError e))
      end
  | None =>
      match _resolve_operating_day requested_date with
      | Raise e => (L, inl (ToolError e))
      | Ok (operating_day, notes, is_open) =>
          if negb is_open then
            (L, inl (ToolError (ValueError (closed_message operating_day))))
          else if negb (string_in requested_time SLOT_TIMES) then
            (L, inl (ToolError (ValueError invalid_time_message)))
          else (L, inl (KeyError size))
      end
  end.

(** [Runner._handle_booking_request], from the fields that
    [_parse_booking_prompt] extracts to the booking dictionary that
    [json.dumps] writes out, for the two tools the grooming agent is built
    with ([get_available_slots] and [book_grooming_appointment], so the
    test on the number of tools passes). *)
Definition _handle_booking_request (request : prompt_fields) (L : ledger)
  : ledger * (runner_exn + booking) :=
  match get_available_slots_untyped (pf_requested_date request)
                                    (pf_dog_size request) L with
  | (L1, inl e) => (L1, inl e)
  | (L1, inr availability) =>
      let slot := pf_requested_time request in
      let chosen : runner_exn + string :=
        if negb (string_in slot (av_available_slots availability)) then
          let alternatives := av_available_slots availability in
          match alternatives with
          | [] => inl (RuntimeError no_slots_message)
          | first :: _ => inr first
          end
        else inr slot in
      match chosen with
      | inl e => (L1, inl e)
      | inr slot =>
          book_grooming_appointment_untyped
            (pf_dog_name request) (pf_dog_size request)
            (pf_requested_date request) slot
            (pf_customer_name request) (pf_contact_number request) L1
      end
  end.

(** ** Proof helpers *)

(** [p] holds of the [n] integers from [lo] on. *)
Fixpoint all_from (n : nat) (p : Z → bool) (lo : Z) : bool :=
  match n with
  | O => true
  | S n' => p lo && all_from n' p (lo + 1)
  end.

(** What [month_day] must return for day [n] of a year. *)
Definition month_day_ok (leapyear : bool) (n : Z) : bool :=
  let '(m, d) := month_day n leapyear in
  (1 <=? m) && (m <=? 12) && (1 <=? d) &&
  (d <=? DAYS_IN_MONTH m + (if (m =? 2) && leapyear then 1 else 0)) &&
  (DAYS_BEFORE_MONTH m + (if (2 <? m) && leapyear then 1 else 0) + d =? n + 1).

(** What the shift needs of a holiday [h] of year [y]: it is a date of that
    year, and the Thursday of its week is no later than December 30. *)
Definition holiday_fact (y : Z) (h : date) : Prop :=
  valid_date h ∧ year h = y ∧
  toordinal h + 3 - weekday h ≤ toordinal (Date y 12 30).

(** * Properties *)

(** ** The calendar *)

Section calendar_facts.

Lemma all_from_spec (n : nat) (p : Z → bool) (lo : Z) :
  all_from n p lo = true → ∀ y, lo ≤ y < lo + Z.of_nat n → p y = true.
Proof.
  revert lo. induction n as [|n IH]; intros lo H y Hy; [lia|].
  simpl in H. apply andb_true_iff in H as [H0 H1].
  destruct (Z.eq_dec y lo) as [->|Hne]; [done|].
  apply (IH (lo + 1) H1). lia.
Qed.

Lemma month_day_spec (leapyear : bool) (n : Z) :
  0 ≤ n < 365 + (if leapyear then 1 else 0) →
  month_day_ok leapyear n = true.
Proof.
  intros Hn. destruct leapyear.
  - assert (H : all_from 366 (month_day_ok true) 0 = true)
      by (vm_compute; reflexivity).
    apply (all_from_spec _ _ _ H). lia.
  - assert (H : all_from 365 (month_day_ok false) 0 = true)
      by (vm_compute; reflexivity).
    apply (all_from_spec _ _ _ H). lia.
Qed.

Lemma days_before_year_cycles (a b c e : Z) :
  0 ≤ b ≤ 3 → 0 ≤ c ≤ 24 → 0 ≤ e ≤ 3 →
  days_before_year (400 * a + 100 * b + 4 * c + e + 1) =
  DI400Y * a + DI100Y * b + DI4Y * c + 365 * e.
Proof.
  intros Hb Hc He. unfold days_before_year, DI400Y, DI100Y, DI4Y.
  Z.div_mod_to_equations. lia.
Qed.

Lemma is_leap_cycles (a b c e : Z) :
  0 ≤ b ≤ 3 → 0 ≤ c ≤ 24 → 0 ≤ e ≤ 3 →
  is_leap (400 * a + 100 * b + 4 * c + e + 1) =
  (e =? 3) && (negb (c =? 24) || (b =? 3)).
Proof.
  intros Hb Hc He. unfold is_leap.
  repeat match goal with
         | |- context [?x =? ?y] => destruct (Z.eqb_spec x y)
         end; simpl; try reflexivity; exfalso;
    Z.div_mod_to_equations; lia.
Qed.

(** The cycles [fromordinal] counts, as equations. *)
Lemma ordinal_cycles (n : Z) :
  1 ≤ n ≤ MAXORDINAL →
  let n0 := n - 1 in
  let a := n0 / DI400Y in let r1 := n0 mod DI400Y in
  let b := r1 / DI100Y in let r2 := r1 mod DI100Y in
  let c := r2 / DI4Y in let r3 := r2 mod DI4Y in
  let e := r3 / 365 in let f := r3 mod 365 in
  n = DI400Y * a + DI100Y * b + DI4Y * c + 365 * e + f + 1 ∧
  0 ≤ a ∧ 0 ≤ b ≤ 4 ∧ 0 ≤ c ≤ 24 ∧ 0 ≤ e ≤ 4 ∧ 0 ≤ f < 365 ∧
  (b = 4 → c = 0 ∧ e = 0 ∧ f = 0) ∧ (e = 4 → f = 0) ∧
  (e = 4 → c = 24 → b = 3 ∨ b = 4).
Proof.
  intros Hn. unfold MAXORDINAL, DI400Y, DI100Y, DI4Y in *. cbv zeta.
  Z.div_mod_to_equations. lia.
Qed.

(** A date given by its cycles, month and day. *)
Lemma cycles_date (a b c e m d : Z) :
  0 ≤ b ≤ 3 → 0 ≤ c ≤ 24 → 0 ≤ e ≤ 3 →
  let y := 400 * a + 100 * b + 4 * c + e + 1 in
  let leapyear := (e =? 3) && (negb (c =? 24) || (b =? 3)) in
  MINYEAR ≤ y ≤ MAXYEAR → 1 ≤ m ≤ 12 →
  1 ≤ d ≤ DAYS_IN_MONTH m + (if (m =? 2) && leapyear then 1 else 0) →
  valid_date (Date y m d) ∧
  toordinal (Date y m d) =
    DI400Y * a + DI100Y * b + DI4Y * c + 365 * e +
    DAYS_BEFORE_MONTH m + (if (2 <? m) && leapyear then 1 else 0) + d.
Proof.
  intros Hb Hc He y leapyear Hy Hm Hd.
  unfold valid_date, valid_dateb, toordinal, days_in_month,
    days_before_month; simpl.
  subst y. rewrite is_leap_cycles, days_before_year_cycles by done.
  fold leapyear. split; [|lia].
  repeat (apply andb_true_intro; split); try (apply Z.leb_le; lia).
  apply Z.leb_le.
  destruct ((m =? 2) && leapyear) eqn:E; [|lia].
  apply andb_true_iff in E as [->%Z.eqb_eq _]. simpl in Hd. lia.
Qed.

(** [fromordinal] returns a date, and [toordinal] takes it back. *)
Lemma fromordinal_spec (n : Z) :
  1 ≤ n ≤ MAXORDINAL →
  valid_date (fromordinal n) ∧ toordinal (fromordinal n) = n.
Proof.
  intros Hn. pose proof (ordinal_cycles n Hn) as H. cbv zeta in H.
  unfold fromordinal.
  set (a := (n - 1) / DI400Y) in *. set (r1 := (n - 1) mod DI400Y) in *.
  set (b := r1 / DI100Y) in *. set (r2 := r1 mod DI100Y) in *.
  set (c := r2 / DI4Y) in *. set (r3 := r2 mod DI4Y) in *.
  set (e := r3 / 365) in *. set (f := r3 mod 365) in *.
  clearbody a b c e f. clear r1 r2 r3.
  destruct H as (En & Ha & Hb & Hc & He & Hf & Hb4 & He4 & He4c).
  destruct (Z.eqb_spec b 4) as [Eb|Eb].
  { (* the last day of a 400-year cycle *)
    destruct (Hb4 Eb) as (-> & -> & ->). subst b. rewrite orb_true_r.
    replace (a * 400 + 1 + 4 * 100 + 0 * 4 + 0 - 1)
      with (400 * a + 100 * 3 + 4 * 24 + 3 + 1) by lia.
    destruct (cycles_date a 3 24 3 12 31) as [Hv Ho];
      [lia | lia | lia
      | unfold MINYEAR, MAXYEAR, MAXORDINAL, DI400Y, DI100Y, DI4Y in *; lia
      | lia | simpl; lia |].
    split; [exact Hv|]. rewrite Ho. simpl.
    unfold DI400Y, DI100Y, DI4Y in *. lia. }
  destruct (Z.eqb_spec e 4) as [Ee|Ee].
  { (* the last day of a 4-year cycle with a leap year *)
    rewrite (He4 Ee) in En. subst e. simpl.
    replace (a * 400 + 1 + b * 100 + c * 4 + 4 - 1)
      with (400 * a + 100 * b + 4 * c + 3 + 1) by lia.
    destruct (cycles_date a b c 3 12 31) as [Hv Ho];
      [lia | lia | lia
      | unfold MINYEAR, MAXYEAR, MAXORDINAL, DI400Y, DI100Y, DI4Y in *; lia
      | lia | simpl; lia |].
    split; [exact Hv|]. rewrite Ho.
    assert (El : negb (c =? 24) || (b =? 3) = true).
    { destruct (Z.eqb_spec c 24) as [Ec|Ec]; [|done].
      destruct (He4c eq_refl Ec); [subst b; done|lia]. }
    rewrite El. simpl. unfold DI400Y, DI100Y, DI4Y in *. lia. }
  simpl.
  set (leapyear := (e =? 3) && (negb (c =? 24) || (b =? 3))).
  assert (Hf' : 0 ≤ f < 365 + (if leapyear then 1 else 0))
    by (destruct leapyear; lia).
  pose proof (month_day_spec leapyear f Hf') as Hmd.
  unfold month_day_ok in Hmd. destruct (month_day f leapyear) as [m d].
  repeat (apply andb_true_iff in Hmd as [Hmd ?]).
  replace (a * 400 + 1 + b * 100 + c * 4 + e)
    with (400 * a + 100 * b + 4 * c + e + 1) by lia.
  destruct (cycles_date a b c e m d) as [Hv Ho];
    [lia | lia | lia
    | unfold MINYEAR, MAXYEAR, MAXORDINAL, DI400Y, DI100Y, DI4Y in *; lia
    | lia | fold leapyear; lia |].
  split; [exact Hv|]. rewrite Ho. fold leapyear. lia.
Qed.

Lemma days_before_year_succ (y : Z) :
  days_before_year (y + 1) =
  days_before_year y + 365 + (if is_leap y then 1 else 0).
Proof.
  unfold days_before_year, is_leap.
  repeat match goal with
         | |- context [?x =? ?y] => destruct (Z.eqb_spec x y)
         end; simpl; Z.div_mod_to_equations; lia.
Qed.

Lemma days_before_year_mono (y y' : Z) :
  y ≤ y' → days_before_year y + 365 * (y' - y) ≤ days_before_year y'.
Proof.
  intros H. replace y' with (y + Z.of_nat (Z.to_nat (y' - y))) by lia.
  generalize (Z.to_nat (y' - y)) as k. clear. intros k.
  induction k as [|k IH]; [simpl; rewrite Z.add_0_r; lia|].
  replace (y + Z.of_nat (S k)) with (y + Z.of_nat k + 1) by lia.
  rewrite days_before_year_succ. destruct (is_leap _); lia.
Qed.

Lemma valid_date_fields (d : date) :
  valid_date d →
  MINYEAR ≤ year d ≤ MAXYEAR ∧ 1 ≤ month d ≤ 12 ∧
  1 ≤ day d ≤ days_in_month (year d) (month d).
Proof.
  unfold valid_date, valid_dateb. intros H.
  repeat (apply andb_true_iff in H as [H ?%Z.leb_le]).
  apply Z.leb_le in H. lia.
Qed.

Lemma month_cases (m : Z) :
  1 ≤ m ≤ 12 →
  m = 1 ∨ m = 2 ∨ m = 3 ∨ m = 4 ∨ m = 5 ∨ m = 6 ∨
  m = 7 ∨ m = 8 ∨ m = 9 ∨ m = 10 ∨ m = 11 ∨ m = 12.
Proof. lia. Qed.

(** The day of the year of a date lies within the year. *)
Lemma day_of_year_bounds (d : date) :
  valid_date d →
  1 ≤ days_before_month (year d) (month d) + day d
    ≤ 365 + (if is_leap (year d) then 1 else 0).
Proof.
  intros (_ & Hm & Hd)%valid_date_fields. revert Hd.
  unfold days_in_month, days_before_month.
  destruct (is_leap (year d));
    destruct (month_cases _ Hm) as [E|[E|[E|[E|[E|[E|[E|[E|[E|[E|[E|E]]]]]]]]]]];
    rewrite E; simpl; lia.
Qed.

Lemma toordinal_bounds (d : date) :
  valid_date d → 1 ≤ toordinal d ≤ MAXORDINAL.
Proof.
  intros Hv. pose proof (day_of_year_bounds d Hv) as Hd.
  destruct (valid_date_fields d Hv) as (Hy & _).
  unfold MINYEAR, MAXYEAR in Hy.
  pose proof (days_before_year_mono 1 (year d) ltac:(lia)) as H1.
  pose proof (days_before_year_mono (year d + 1) 10000 ltac:(lia)) as H2.
  rewrite days_before_year_succ in H2.
  change (days_before_year 1) with 0 in H1.
  change (days_before_year 10000) with MAXORDINAL in H2.
  unfold toordinal. lia.
Qed.

Lemma toordinal_lt_year (d1 d2 : date) :
  valid_date d1 → valid_date d2 → year d1 < year d2 →
  toordinal d1 < toordinal d2.
Proof.
  intros H1 H2 Hy.
  pose proof (day_of_year_bounds d1 H1). pose proof (day_of_year_bounds d2 H2).
  pose proof (days_before_year_mono (year d1 + 1) (year d2) ltac:(lia)) as Hm.
  rewrite days_before_year_succ in Hm. unfold toordinal. lia.
Qed.

Lemma toordinal_lt_month (d1 d2 : date) :
  valid_date d1 → valid_date d2 → year d1 = year d2 → month d1 < month d2 →
  toordinal d1 < toordinal d2.
Proof.
  intros (_ & Hm1 & Hd1)%valid_date_fields (_ & Hm2 & Hd2)%valid_date_fields
    Ey Hlt.
  unfold toordinal. rewrite <- Ey in *. revert Hd1 Hd2.
  unfold days_in_month, days_before_month.
  destruct (is_leap (year d1));
    destruct (month_cases _ Hm1) as [E|[E|[E|[E|[E|[E|[E|[E|[E|[E|[E|E]]]]]]]]]]];
    rewrite E in *; simpl;
    destruct (month_cases _ Hm2) as [F|[F|[F|[F|[F|[F|[F|[F|[F|[F|[F|F]]]]]]]]]]];
    rewrite F in *; simpl; lia.
Qed.

(** [<=] on dates is [<=] on their ordinals. *)
Lemma date_leb_toordinal (d1 d2 : date) :
  valid_date d1 → valid_date d2 →
  date_leb d1 d2 = true ↔ toordinal d1 ≤ toordinal d2.
Proof.
  intros H1 H2.
  pose proof (toordinal_lt_year d1 d2 H1 H2).
  pose proof (toordinal_lt_year d2 d1 H2 H1).
  pose proof (toordinal_lt_month d1 d2 H1 H2).
  pose proof (toordinal_lt_month d2 d1 H2 H1).
  assert (year d1 = year d2 → month d1 = month d2 →
          toordinal d1 - toordinal d2 = day d1 - day d2) as Hd
    by (unfold toordinal; intros -> ->; lia).
  unfold date_leb.
  rewrite orb_true_iff, andb_true_iff, orb_true_iff, andb_true_iff.
  rewrite !Z.ltb_lt, !Z.eqb_eq, Z.leb_le. lia.
Qed.

Lemma toordinal_inj (d1 d2 : date) :
  valid_date d1 → valid_date d2 → toordinal d1 = toordinal d2 → d1 = d2.
Proof.
  intros H1 H2 E.
  pose proof (toordinal_lt_year d1 d2 H1 H2).
  pose proof (toordinal_lt_year d2 d1 H2 H1).
  pose proof (toordinal_lt_month d1 d2 H1 H2).
  pose proof (toordinal_lt_month d2 d1 H2 H1).
  assert (year d1 = year d2 → month d1 = month d2 →
          toordinal d1 - toordinal d2 = day d1 - day d2) as Hd
    by (unfold toordinal; intros -> ->; lia).
  destruct d1 as [y1 m1 dd1], d2 as [y2 m2 dd2]; simpl in *.
  f_equal; lia.
Qed.

Lemma date_eqb_eq (d1 d2 : date) : date_eqb d1 d2 = true ↔ d1 = d2.
Proof.
  unfold date_eqb. rewrite !andb_true_iff, !Z.eqb_eq.
  destruct d1, d2; simpl. split; [intros [[-> ->] ->]; done|].
  intros [= -> -> ->]. done.
Qed.

Lemma fromordinal_toordinal (d : date) :
  valid_date d → fromordinal (toordinal d) = d.
Proof.
  intros Hv. pose proof (toordinal_bounds d Hv) as Hb.
  destruct (fromordinal_spec _ Hb) as [Hv' Ho].
  by apply toordinal_inj.
Qed.

Lemma weekday_range (d : date) : 0 ≤ weekday d ≤ 6.
Proof. unfold weekday. pose proof (Z.mod_pos_bound (toordinal d + 6) 7). lia. Qed.

(** [d + timedelta(days=k)], when the result is in range. *)
Lemma date_add_spec (d : date) (k : Z) :
  1 ≤ toordinal d + k ≤ MAXORDINAL →
  ∃ d', date_add d k = Ok d' ∧ valid_date d' ∧
        toordinal d' = toordinal d + k ∧
        weekday d' = (weekday d + k) mod 7.
Proof.
  intros Hr. exists (fromordinal (toordinal d + k)).
  destruct (fromordinal_spec _ Hr) as [Hv Ho].
  unfold date_add.
  replace ((0 <? toordinal d + k) && (toordinal d + k <=? MAXORDINAL))
    with true by (symmetry; apply andb_true_iff; split;
                  [apply Z.ltb_lt|apply Z.leb_le]; lia).
  repeat split; [done..|].
  unfold weekday. rewrite Ho. Z.div_mod_to_equations. lia.
Qed.

Lemma date_new_valid (y m d : Z) :
  valid_date (Date y m d) → date_new y m d = Ok (Date y m d).
Proof. unfold date_new, valid_date. by intros ->. Qed.

Lemma date_add_same_month (y m d k : Z) :
  valid_date (Date y m d) → valid_date (Date y m (d + k)) →
  date_add (Date y m d) k = Ok (Date y m (d + k)).
Proof.
  intros H1 H2.
  assert (E : toordinal (Date y m (d + k)) = toordinal (Date y m d) + k)
    by (unfold toordinal; simpl; lia).
  pose proof (toordinal_bounds _ H2) as Hb. rewrite E in Hb.
  destruct (date_add_spec _ _ Hb) as (d' & -> & Hv & Ho & _).
  f_equal. apply toordinal_inj; [done..|lia].
Qed.

End calendar_facts.

(** ** The resolver *)

Section resolver_facts.

Lemma bind_Ok {A B : Type} (a : A) (k : A → res B) : (Ok a ≫= k) = k a.
Proof. reflexivity. Qed.

(** The loop finds its weekday within a week, [dist] days away. *)
Lemma seek_weekday_spec (budget : nat) (step target : Z) (c : date) :
  step = 1 ∨ step = -1 → 0 ≤ target ≤ 6 → valid_date c →
  let dist := (step * (target - weekday c)) mod 7 in
  dist < Z.of_nat budget →
  1 ≤ toordinal c + step * dist ≤ MAXORDINAL →
  ∃ r, seek_weekday budget step target c = Ok r ∧ valid_date r ∧
       weekday r = target ∧ toordinal r = toordinal c + step * dist.
Proof.
  intros Hstep Ht. revert c.
  induction budget as [|budget IH]; intros c Hv dist Hd Hr.
  { pose proof (Z.mod_pos_bound (step * (target - weekday c)) 7). lia. }
  pose proof (weekday_range c) as Hw.
  pose proof (toordinal_bounds c Hv) as Hc.
  simpl. destruct (Z.eqb_spec (weekday c) target) as [E|E].
  { exists c. repeat split; [done..|].
    subst dist. rewrite E, Z.sub_diag, Z.mul_0_r, Zmod_0_l. lia. }
  assert (Hd1 : 1 ≤ dist ≤ 6)
    by (subst dist; destruct Hstep as [-> | ->]; Z.div_mod_to_equations; lia).
  destruct (date_add_spec c step) as (next & -> & Hvn & Hon & Hwn);
    [destruct Hstep as [-> | ->]; lia|].
  simpl.
  assert (Edist : (step * (target - weekday next)) mod 7 = dist - 1).
  { rewrite Hwn. subst dist.
    destruct Hstep as [-> | ->]; Z.div_mod_to_equations; lia. }
  destruct (IH next Hvn) as (r & Hr1 & Hr2 & Hr3 & Hr4).
  - rewrite Edist. lia.
  - rewrite Edist, Hon. destruct Hstep as [-> | ->]; lia.
  - exists r. repeat split; [done..|].
    rewrite Hr4, Edist, Hon. destruct Hstep as [-> | ->]; lia.
Qed.

Lemma monthrange_last_days (y m : Z) :
  1 ≤ m ≤ 12 →
  monthrange_last y m = days_in_month y m ∧ 28 ≤ monthrange_last y m.
Proof.
  intros Hm. unfold monthrange_last, days_in_month.
  destruct (is_leap y);
    destruct (month_cases _ Hm) as [E|[E|[E|[E|[E|[E|[E|[E|[E|[E|[E|E]]]]]]]]]]];
    rewrite E; simpl; lia.
Qed.

Lemma valid_date_intro (y m d : Z) :
  MINYEAR ≤ y ≤ MAXYEAR → 1 ≤ m ≤ 12 → 1 ≤ d ≤ days_in_month y m →
  valid_date (Date y m d).
Proof.
  intros Hy Hm Hd. unfold valid_date, valid_dateb. simpl.
  repeat (apply andb_true_intro; split); apply Z.leb_le; lia.
Qed.

Lemma weekday_same_month (y m d k : Z) :
  weekday (Date y m (d + k)) = (weekday (Date y m d) + k) mod 7.
Proof.
  unfold weekday, toordinal. simpl.
  generalize (days_before_year y + days_before_month y m). intros o.
  Z.div_mod_to_equations. lia.
Qed.

(** The last [wd]-day of a month is one of its last seven days. *)
Lemma last_weekday_of_month_spec (y m wd : Z) :
  MINYEAR ≤ y ≤ MAXYEAR → 1 ≤ m ≤ 12 → 0 ≤ wd ≤ 6 →
  ∃ j, 0 ≤ j ≤ 6 ∧
       _last_weekday_of_month y m wd = Ok (Date y m (monthrange_last y m - j)) ∧
       valid_date (Date y m (monthrange_last y m - j)) ∧
       weekday (Date y m (monthrange_last y m - j)) = wd.
Proof.
  intros Hy Hm Hwd. destruct (monthrange_last_days y m Hm) as [El Hl].
  unfold _last_weekday_of_month.
  set (last := monthrange_last y m) in *.
  assert (Hvc : valid_date (Date y m last)) by (apply valid_date_intro; lia).
  rewrite (date_new_valid _ _ _ Hvc). simpl.
  set (dist := (-1 * (wd - weekday (Date y m last))) mod 7).
  assert (Hd : 0 ≤ dist < 7) by (apply Z.mod_pos_bound; lia).
  assert (Hvr : valid_date (Date y m (last - dist)))
    by (apply valid_date_intro; lia).
  assert (Eo : toordinal (Date y m (last - dist)) =
               toordinal (Date y m last) + -1 * dist)
    by (unfold toordinal; simpl; lia).
  destruct (seek_weekday_spec WEEK (-1) wd (Date y m last))
    as (r & Hr & Hv & Hw & Ho); [by right|done|done|unfold WEEK; fold dist; lia| |].
  { fold dist. rewrite <- Eo. by apply toordinal_bounds. }
  fold dist in Ho. rewrite <- Eo in Ho.
  apply toordinal_inj in Ho; [|done..]. subst r.
  exists dist. repeat split; [lia|lia|done..].
Qed.

Lemma holiday_fact_early (y m d : Z) :
  valid_date (Date y m d) → m < 12 → holiday_fact y (Date y m d).
Proof.
  intros Hv Hm. repeat split; [done|].
  destruct (valid_date_fields _ Hv) as (Hy & _). simpl in Hy.
  assert (Hv1 : valid_date (Date y 12 1)) by (by apply valid_date_intro).
  pose proof (toordinal_lt_month _ _ Hv Hv1 eq_refl Hm) as Hlt.
  pose proof (weekday_range (Date y m d)).
  unfold toordinal in *; simpl in *. lia.
Qed.

Lemma holiday_fact_december (y d : Z) :
  MINYEAR ≤ y ≤ MAXYEAR → 1 ≤ d ≤ 27 + weekday (Date y 12 d) →
  d ≤ 31 → holiday_fact y (Date y 12 d).
Proof.
  intros Hy Hd Hd'. repeat split.
  - apply valid_date_intro; [done..|]. unfold days_in_month. simpl. lia.
  - unfold toordinal; simpl. lia.
Qed.

(** The holidays of a year: the last Mondays of May and August,
    December 25, and its substitute after a weekend. *)
Lemma bank_holidays_spec (y : Z) :
  MINYEAR ≤ y ≤ MAXYEAR →
  ∃ j5 j8 subs,
    0 ≤ j5 ≤ 6 ∧ 0 ≤ j8 ≤ 6 ∧
    _last_weekday_of_month y 5 0 = Ok (Date y 5 (31 - j5)) ∧
    _bank_holidays_for_year y =
      Ok ([Date y 5 (31 - j5); Date y 8 (31 - j8); Date y 12 25] ++ subs) ∧
    weekday (Date y 5 (31 - j5)) = 0 ∧ weekday (Date y 8 (31 - j8)) = 0 ∧
    Forall (holiday_fact y)
      ([Date y 5 (31 - j5); Date y 8 (31 - j8); Date y 12 25] ++ subs).
Proof.
  intros Hy. unfold _bank_holidays_for_year.
  destruct (last_weekday_of_month_spec y 5 0) as (j5 & Hj5 & E5m & Hv5 & Hw5);
    [done|lia|lia|].
  rewrite E5m.
  destruct (last_weekday_of_month_spec y 8 0) as (j8 & Hj8 & -> & Hv8 & Hw8);
    [done|lia|lia|].
  change (monthrange_last y 5) with 31 in *.
  change (monthrange_last y 8) with 31 in *.
  assert (Hvc : valid_date (Date y 12 25)) by (by apply valid_date_intro).
  rewrite (date_new_valid _ _ _ Hvc). simpl.
  pose proof (weekday_range (Date y 12 25)) as Hwc.
  assert (F5 := holiday_fact_early _ _ _ Hv5 ltac:(lia)).
  assert (F8 := holiday_fact_early _ _ _ Hv8 ltac:(lia)).
  assert (Fc : holiday_fact y (Date y 12 25))
    by (apply holiday_fact_december; lia).
  exists j5, j8.
  destruct (Z.eqb_spec (weekday (Date y 12 25)) 5) as [E5|E5].
  { assert (Hvs : valid_date (Date y 12 (25 + 2))) by (by apply valid_date_intro).
    rewrite (date_add_same_month _ _ _ _ Hvc Hvs). simpl.
    exists [Date y 12 27]. repeat split; try lia; try done.
    do 3 (constructor; [done|]). constructor; [|constructor].
    apply holiday_fact_december; [done| |lia].
    pose proof (weekday_same_month y 12 25 2) as Hs.
    rewrite E5 in Hs. change (25 + 2) with 27 in Hs.
    change ((5 + 2) mod 7) with 0 in Hs. rewrite Hs. lia. }
  destruct (Z.eqb_spec (weekday (Date y 12 25)) 6) as [E6|E6].
  { assert (Hvs : valid_date (Date y 12 (25 + 1))) by (by apply valid_date_intro).
    rewrite (date_add_same_month _ _ _ _ Hvc Hvs). simpl.
    exists [Date y 12 26]. repeat split; try lia; try done.
    do 3 (constructor; [done|]). constructor; [|constructor].
    apply holiday_fact_december; [done| |lia].
    pose proof (weekday_same_month y 12 25 1) as Hs.
    rewrite E6 in Hs. change (25 + 1) with 26 in Hs.
    change ((6 + 1) mod 7) with 0 in Hs. rewrite Hs. lia. }
  exists []. repeat split; try lia; try done.
  do 3 (constructor; [done|]). constructor.
Qed.

(** The window after Boxing Day: a Monday, the Tuesday and the
    Wednesday, all within the range of [date]. *)
Lemma shutdown_window_spec (y : Z) :
  MINYEAR ≤ y ≤ MAXYEAR →
  ∃ w0 w1 w2,
    shutdown_window (Date y 12 26) = Ok [w0; w1; w2] ∧
    valid_date w0 ∧ valid_date w1 ∧ valid_date w2 ∧
    weekday w0 = 0 ∧ weekday w1 = 1 ∧ weekday w2 = 2 ∧
    toordinal (Date y 12 26) < toordinal w0 ∧
    toordinal w1 = toordinal w0 + 1 ∧ toordinal w2 = toordinal w0 + 2.
Proof.
  intros Hy. unfold shutdown_window.
  assert (Hv26 : valid_date (Date y 12 26)) by (by apply valid_date_intro).
  assert (Hv27 : valid_date (Date y 12 (26 + 1))) by (by apply valid_date_intro).
  rewrite (date_add_same_month _ _ _ _ Hv26 Hv27), bind_Ok.
  change (26 + 1) with 27 in *.
  set (dist := (1 * (0 - weekday (Date y 12 27))) mod 7).
  assert (Hd : 0 ≤ dist < 7) by (apply Z.mod_pos_bound; lia).
  pose proof (toordinal_bounds _ Hv27) as Hb27.
  assert (Hr : toordinal (Date y 12 27) + dist + 2 ≤ MAXORDINAL).
  { destruct (Z.eq_dec y MAXYEAR) as [->|Hne].
    - vm_compute. discriminate.
    - assert (Hvn : valid_date (Date (y + 1) 1 4))
        by (apply valid_date_intro;
            [unfold MINYEAR, MAXYEAR in *; lia|done..]).
      apply toordinal_bounds in Hvn. revert Hvn.
      unfold toordinal; simpl. rewrite days_before_year_succ.
      unfold days_before_month. simpl. destruct (is_leap y); lia. }
  destruct (seek_weekday_spec WEEK 1 0 (Date y 12 27))
    as (w & -> & Hvw & Hww & How);
    [by left|done|done|unfold WEEK; fold dist; lia|fold dist; lia|].
  fold dist in How. rewrite bind_Ok. simpl.
  destruct (date_add_spec w 0) as (w0 & -> & Hv0 & Ho0 & Hw0); [lia|].
  destruct (date_add_spec w 1) as (w1 & -> & Hv1 & Ho1 & Hw1); [lia|].
  destruct (date_add_spec w 2) as (w2 & -> & Hv2 & Ho2 & Hw2); [lia|].
  simpl. exists w0, w1, w2. rewrite Hww in *.
  repeat split; [done..| |lia|lia].
  unfold toordinal in *; simpl in *. lia.
Qed.

Lemma date_in_elem (d : date) (l : list date) :
  date_in d l = true ↔ In d l.
Proof.
  unfold date_in. rewrite existsb_exists. split.
  - intros (x & Hx & ->%date_eqb_eq). done.
  - intros H. exists d. split; [done|]. by apply date_eqb_eq.
Qed.

(** The shutdown test returns, and says yes on December 24 to 26 and
    otherwise only on a Monday, Tuesday or Wednesday after them. *)
Lemma christmas_shutdown_spec (d : date) :
  valid_date d →
  ∃ shut, _is_christmas_shutdown d = Ok shut ∧
    (month d = 12 → 24 ≤ day d ≤ 26 → shut = true) ∧
    (shut = true → month d = 12 ∧ 24 ≤ day d ∧
                   (26 < day d → 0 ≤ weekday d ≤ 2)).
Proof.
  intros Hv. destruct (valid_date_fields d Hv) as (Hy & Hm & Hd).
  unfold _is_christmas_shutdown, Z_in. simpl.
  destruct (Z.eqb_spec (month d) 12) as [Em|Em]; simpl.
  - destruct (Z.eqb_spec (day d) 24) as [E24|E24]; simpl;
      [exists true; repeat split; lia|].
    destruct (Z.eqb_spec (day d) 25) as [E25|E25]; simpl;
      [exists true; repeat split; lia|].
    destruct (Z.eqb_spec (day d) 26) as [E26|E26]; simpl;
      [exists true; repeat split; lia|].
    assert (Hv26 : valid_date (Date (year d) 12 26)) by (by apply valid_date_intro).
    rewrite (date_new_valid _ _ _ Hv26). simpl.
    destruct (date_leb d (Date (year d) 12 26)) eqn:El.
    + exists false. repeat split; [lia|done..].
    + destruct (shutdown_window_spec (year d) Hy)
        as (w0 & w1 & w2 & -> & _ & _ & _ & H0 & H1 & H2 & _).
      simpl. exists (date_in d [w0; w1; w2]). split; [done|]. split; [lia|].
      intros Hin%date_in_elem. split; [done|]. split.
      * revert El. unfold date_leb. simpl.
        rewrite Z.ltb_irrefl, Z.eqb_refl, Em. simpl.
        intros ?%Z.leb_gt. lia.
      * intros _. destruct Hin as [<-|[<-|[<-|[]]]]; lia.
  - assert (Hv26 : valid_date (Date (year d) 12 26)) by (by apply valid_date_intro).
    rewrite (date_new_valid _ _ _ Hv26). simpl.
    replace (date_leb d (Date (year d) 12 26)) with true.
    + exists false. repeat split; [lia|done..].
    + symmetry. unfold date_leb. simpl.
      rewrite Z.ltb_irrefl, Z.eqb_refl. simpl.
      apply orb_true_iff. left. apply Z.ltb_lt. lia.
Qed.

Lemma open_weekday_iff (d : date) :
  Z_in (weekday d) OPEN_WEEKDAYS = true ↔ 0 ≤ weekday d ≤ 2.
Proof.
  pose proof (weekday_range d). unfold Z_in, OPEN_WEEKDAYS. simpl.
  rewrite !orb_true_iff, !Z.eqb_eq. lia.
Qed.

Lemma is_bank_holiday_spec (d : date) :
  valid_date d →
  ∃ hol, _is_bank_holiday d = Ok hol ∧
         (hol = true → holiday_fact (year d) d).
Proof.
  intros Hv. destruct (valid_date_fields d Hv) as (Hy & _).
  unfold _is_bank_holiday.
  destruct (bank_holidays_spec _ Hy)
    as (j5 & j8 & subs & _ & _ & _ & -> & _ & _ & Hall).
  rewrite bind_Ok. eexists. split; [done|].
  intros Hin%date_in_elem. rewrite List.Forall_forall in Hall. by apply Hall.
Qed.

(** The shift: a holiday on an operating weekday moves to the Thursday
    of its week and is forced open; any other date stays. *)
Lemma shift_bank_holiday_spec (d : date) :
  valid_date d →
  (_shift_bank_holiday d = Ok (d, [], false) ∧
   (¬ 0 ≤ weekday d ≤ 2 ∨ _is_bank_holiday d = Ok false)) ∨
  (∃ d', _shift_bank_holiday d = Ok (d', [bank_holiday_note d d'], true) ∧
         0 ≤ weekday d ≤ 2 ∧ _is_bank_holiday d = Ok true ∧
         date_add d (3 - weekday d) = Ok d' ∧ valid_date d' ∧
         toordinal d' = toordinal d + (3 - weekday d) ∧ weekday d' = 3).
Proof.
  intros Hv. unfold _shift_bank_holiday.
  pose proof (open_weekday_iff d) as Hopen.
  destruct (Z_in (weekday d) OPEN_WEEKDAYS).
  2: { left. split; [done|]. left. intros H. apply Hopen in H. done. }
  destruct (is_bank_holiday_spec d Hv) as ([] & Eh & Hf); rewrite Eh, bind_Ok.
  2: { left. split; [done|]. by right. }
  right. destruct (Hf eq_refl) as (_ & _ & Hr).
  assert (Hw : 0 ≤ weekday d ≤ 2) by (by apply Hopen).
  pose proof (toordinal_bounds d Hv) as Hb.
  assert (Hv30 : valid_date (Date (year d) 12 30))
    by (apply valid_date_intro; [by apply valid_date_fields|done..]).
  apply toordinal_bounds in Hv30.
  destruct (date_add_spec d (3 - weekday d)) as (d' & Ea & Hv' & Ho & Hw');
    [lia|].
  exists d'. rewrite Ea, bind_Ok. repeat split; [lia|lia|done..|].
  rewrite Hw'. Z.div_mod_to_equations. lia.
Qed.

(** The operating-day test returns the date it is given, with at most
    one closure note. *)
Lemma ensure_operating_day_spec (d : date) (force_open : bool) :
  valid_date d →
  ∃ shut, _is_christmas_shutdown d = Ok shut ∧
    _ensure_operating_day d force_open =
      Ok (d, if force_open && (weekday d =? 3) && negb shut then []
             else if negb (Z_in (weekday d) OPEN_WEEKDAYS)
                  then [weekday_closed_note d]
             else if shut then [shutdown_note d] else []).
Proof.
  intros Hv. destruct (christmas_shutdown_spec d Hv) as (shut & Es & _).
  exists shut. split; [done|]. unfold _ensure_operating_day. rewrite Es.
  destruct force_open, (weekday d =? 3), shut,
    (Z_in (weekday d) OPEN_WEEKDAYS); reflexivity.
Qed.

Lemma parse_date_valid (s : string) (d : date) :
  _parse_date s = Ok d → valid_date d.
Proof.
  unfold _parse_date, fromisoformat.
  repeat (match goal with
          | |- context [match ?x with _ => _ end] => destruct x
          end; try discriminate).
  unfold date_new. destruct (valid_dateb _) eqn:Hv; [|discriminate].
  intros [= <-]. exact Hv.
Qed.

Lemma char_digit_digit_char (n : Z) :
  char_digit (digit_char n) = Some (n mod 10).
Proof.
  pose proof (Z.mod_pos_bound n 10 ltac:(lia)) as Hn.
  unfold char_digit, digit_char.
  rewrite nat_ascii_embedding by lia.
  replace (Z.of_nat (48 + Z.to_nat (n mod 10))) with (48 + n mod 10) by lia.
  replace ((48 <=? 48 + n mod 10) && (48 + n mod 10 <=? 57)) with true
    by (symmetry; apply andb_true_iff; split; apply Z.leb_le; lia).
  f_equal. lia.
Qed.

(** Parsing what [isoformat] writes gives the date back. *)
Lemma parse_isoformat (d : date) :
  valid_date d → _parse_date (isoformat d) = Ok d.
Proof.
  intros Hv. destruct (valid_date_fields d Hv) as (Hy & Hm & Hd).
  assert (Hd' : day d ≤ 31).
  { revert Hd. unfold days_in_month.
    destruct (is_leap (year d));
      destruct (month_cases _ Hm) as [E|[E|[E|[E|[E|[E|[E|[E|[E|[E|[E|E]]]]]]]]]]];
      rewrite E; simpl; lia. }
  unfold MINYEAR, MAXYEAR in Hy.
  unfold _parse_date.
  cbv beta iota delta [fromisoformat isoformat pad4 pad2].
  rewrite !char_digit_digit_char.
  destruct d as [y m dd]; simpl in *.
  replace (_ * 1000 + _ * 100 + _ * 10 + _) with y
    by (Z.div_mod_to_equations; lia).
  replace ((m / 10) mod 10 * 10 + m mod 10) with m
    by (Z.div_mod_to_equations; lia).
  replace ((dd / 10) mod 10 * 10 + dd mod 10) with dd
    by (Z.div_mod_to_equations; lia).
  by apply date_new_valid.
Qed.

(** The resolver returns on every date.  The operating date is the
    requested one or the Thursday it is shifted to, and a closed day
    carries a closure note. *)
Lemma resolve_date_spec (d : date) :
  valid_date d →
  ∃ op shift_notes closure force_open,
    _shift_bank_holiday d = Ok (op, shift_notes, force_open) ∧
    _ensure_operating_day op force_open = Ok (op, closure) ∧
    resolve_date d =
      Ok (op, shift_notes ++ closure,
          is_empty closure &&
          (force_open || Z_in (weekday op) OPEN_WEEKDAYS)) ∧
    valid_date op ∧
    (is_empty closure && (force_open || Z_in (weekday op) OPEN_WEEKDAYS)
       = false → closure ≠ []).
Proof.
  intros Hv.
  assert (∃ op shift_notes force_open,
            _shift_bank_holiday d = Ok (op, shift_notes, force_open) ∧
            valid_date op ∧ (force_open = true → weekday op = 3))
    as (op & shift_notes & fo & Es & Hvo & Hfo).
  { destruct (shift_bank_holiday_spec d Hv)
      as [[E _]|(d' & E & _ & _ & _ & Hv' & _ & Hw')].
    - exists d, [], false. repeat split; [exact E|exact Hv|discriminate].
    - exists d', [bank_holiday_note d d'], true.
      repeat split; [exact E|exact Hv'|]. intros _. exact Hw'. }
  destruct (ensure_operating_day_spec op fo Hvo) as (shut & Eshut & Ee).
  eexists op, shift_notes, _, fo. split; [exact Es|]. split; [exact Ee|].
  split; [|split; [exact Hvo|]].
  - unfold resolve_date. rewrite Es, bind_Ok. simpl. rewrite Ee. reflexivity.
  - destruct fo.
    + rewrite (Hfo eq_refl). destruct shut; simpl; done.
    + destruct (Z_in (weekday op) OPEN_WEEKDAYS), shut; simpl; done.
Qed.

Lemma resolve_operating_day_parsed (s : string) (d : date) :
  _parse_date s = Ok d → _resolve_operating_day s = resolve_date d.
Proof. intros E. unfold _resolve_operating_day. by rewrite E. Qed.

Lemma resolve_date_compute
  (d op : date) (shift_notes closure : list string) (force_open : bool) :
  _shift_bank_holiday d = Ok (op, shift_notes, force_open) →
  _ensure_operating_day op force_open = Ok (op, closure) →
  resolve_date d =
    Ok (op, shift_notes ++ closure,
        is_empty closure && (force_open || Z_in (weekday op) OPEN_WEEKDAYS)).
Proof.
  intros Es Ee. unfold resolve_date. rewrite Es, bind_Ok. simpl.
  rewrite Ee. reflexivity.
Qed.

Lemma christmas_is_bank_holiday (y : Z) :
  MINYEAR ≤ y ≤ MAXYEAR → _is_bank_holiday (Date y 12 25) = Ok true.
Proof.
  intros Hy. unfold _is_bank_holiday. simpl.
  destruct (bank_holidays_spec y Hy) as (j5 & j8 & subs & _ & _ & _ & -> & _).
  rewrite bind_Ok. f_equal. apply date_in_elem. simpl. tauto.
Qed.

Lemma last_monday_of_may_is_bank_holiday (y : Z) (monday : date) :
  MINYEAR ≤ y ≤ MAXYEAR → _last_weekday_of_month y 5 0 = Ok monday →
  _is_bank_holiday monday = Ok true ∧ year monday = y ∧ month monday = 5 ∧
  25 ≤ day monday ≤ 31 ∧ weekday monday = 0 ∧ valid_date monday.
Proof.
  intros Hy E.
  destruct (bank_holidays_spec y Hy)
    as (j5 & j8 & subs & Hj5 & _ & E5 & Eh & Hw5 & _ & Hall).
  rewrite E in E5. injection E5 as ->.
  apply List.Forall_inv in Hall as (Hv & _).
  unfold _is_bank_holiday. simpl. rewrite Eh, bind_Ok.
  repeat split; [|lia|lia|done..].
  f_equal. apply date_in_elem. simpl. tauto.
Qed.

(** A date between two dates of one year is of that year, and its month
    is between theirs. *)
Lemma between_dates (d a b : date) :
  valid_date d → valid_date a → valid_date b → year a = year b →
  toordinal a ≤ toordinal d ≤ toordinal b →
  year d = year a ∧ month a ≤ month d ≤ month b.
Proof.
  intros Hd Ha Hb Ey [H1 H2].
  apply (date_leb_toordinal a d Ha Hd) in H1.
  apply (date_leb_toordinal d b Hd Hb) in H2.
  revert H1 H2. unfold date_leb.
  rewrite !orb_true_iff, !andb_true_iff, !orb_true_iff, !andb_true_iff.
  rewrite !Z.ltb_lt, !Z.eqb_eq, !Z.leb_le. lia.
Qed.

Lemma christmas_shutdown_only_in_december (d : date) :
  valid_date d → month d ≠ 12 → _is_christmas_shutdown d = Ok false.
Proof.
  intros Hv Hm. destruct (christmas_shutdown_spec d Hv) as ([] & E & _ & H);
    [|exact E].
  destruct (H eq_refl) as [Hm' _]. done.
Qed.

(** The days of the window that fall in December of the same year are
    closed, whether forced open or not. *)
Lemma shutdown_window_closed_in_december
  (y : Z) (window : list date) (w : date) (force_open : bool) :
  MINYEAR ≤ y ≤ MAXYEAR →
  shutdown_window (Date y 12 26) = Ok window → In w window → year w = y →
  _is_christmas_shutdown w = Ok true ∧
  _ensure_operating_day w force_open = Ok (w, [shutdown_note w]).
Proof.
  intros Hy Ew Hin Hyw.
  destruct (shutdown_window_spec y Hy)
    as (w0 & w1 & w2 & Ew' & Hv0 & Hv1 & Hv2 & H0 & H1 & H2 & Hlt & Ho1 & Ho2).
  rewrite Ew in Ew'. injection Ew' as ->.
  assert (Hv : valid_date w) by (destruct Hin as [<-|[<-|[<-|[]]]]; done).
  assert (Hwd : 0 ≤ weekday w ≤ 2) by (destruct Hin as [<-|[<-|[<-|[]]]]; lia).
  assert (Hafter : toordinal (Date y 12 26) < toordinal w)
    by (destruct Hin as [<-|[<-|[<-|[]]]]; lia).
  assert (Hv26 : valid_date (Date y 12 26)) by (by apply valid_date_intro).
  assert (El : date_leb w (Date y 12 26) = false).
  { destruct (date_leb w (Date y 12 26)) eqn:E; [|done].
    apply (date_leb_toordinal _ _ Hv Hv26) in E. lia. }
  assert (Es : _is_christmas_shutdown w = Ok true).
  { unfold _is_christmas_shutdown.
    destruct ((month w =? 12) && Z_in (day w) [24; 25; 26]); [done|].
    rewrite Hyw, (date_new_valid _ _ _ Hv26), bind_Ok, El, Ew, bind_Ok.
    f_equal. by apply date_in_elem. }
  split; [exact Es|].
  destruct (ensure_operating_day_spec w force_open Hv) as (shut & Es' & ->).
  rewrite Es in Es'. injection Es' as <-.
  apply open_weekday_iff in Hwd. rewrite Hwd.
  replace (weekday w =? 3) with false
    by (symmetry; apply Z.eqb_neq; apply open_weekday_iff in Hwd; lia).
  by rewrite andb_false_r.
Qed.

End resolver_facts.

(** ** The ledger and the tools *)

Section ledger_facts.

Lemma M_bind_run {A B : Type} (c : M A) (k : A → M B) (L : ledger) :
  (c ≫= k) L =
  match c L with
  | (L', Ok a) => k a L'
  | (L', Raise e) => (L', Raise e)
  end.
Proof. reflexivity. Qed.

Lemma string_in_elem (x : string) (l : list string) :
  string_in x l = true ↔ x ∈ l.
Proof.
  unfold string_in. rewrite existsb_exists, list_elem_of_In. split.
  - intros (y & Hy & ->%String.eqb_eq). done.
  - intros H. exists x. split; [done|]. apply String.eqb_refl.
Qed.

Lemma units_used_insert (L : ledger) (k k' s : string) (dl : gmap string Z) :
  units_used (<[k := dl]> L) k' s =
  if decide (k = k') then default 0 (dl !! s) else units_used L k' s.
Proof.
  unfold units_used. rewrite lookup_insert.
  destruct (decide (k = k')); done.
Qed.

(** [setdefault] hands out the day's dictionary and changes no count. *)
Lemma setdefault_spec (k : string) (L : ledger) :
  ∃ L1, setdefault k L = (L1, Ok (default ∅ (L !! k))) ∧
        L1 !! k = Some (default ∅ (L !! k)) ∧
        (∀ k' s, units_used L1 k' s = units_used L k' s).
Proof.
  unfold setdefault. destruct (L !! k) as [dl|] eqn:E.
  - exists L. simpl. done.
  - exists (<[k := ∅]> L). simpl. split; [done|].
    split; [apply lookup_insert_eq|].
    intros k' s. rewrite units_used_insert.
    destruct (decide (k = k')) as [<-|]; [|done].
    unfold units_used. rewrite E. done.
Qed.

(** Writing a slot changes that slot of that day only. *)
Lemma set_slot_spec (k t : string) (v : Z) (L : ledger) :
  ∃ L2, set_slot k t v L = (L2, Ok tt) ∧
        ∀ k' s, units_used L2 k' s =
                if decide (k' = k ∧ s = t) then v else units_used L k' s.
Proof.
  eexists. split; [reflexivity|]. intros k' s.
  rewrite units_used_insert.
  destruct (decide (k = k')) as [<-|Hk].
  - rewrite lookup_insert. destruct (decide (t = s)) as [<-|Hs].
    + rewrite decide_True by done. done.
    + rewrite decide_False by (intros [_ ?]; done). done.
  - rewrite decide_False by (intros [? _]; done). done.
Qed.

(** The comprehension keeps the slots with room, in order, and writes
    nothing. *)
Lemma filterM_slot_has_capacity (op : date) (u : Z) (l : list string) (L : ledger) :
  filterM (fun slot => _slot_has_capacity op slot u) l L =
  (L, Ok (filter (fun slot => units_used L (isoformat op) slot + u
                              ≤ CAPACITY_UNITS) l)).
Proof.
  induction l as [|x l IH]; [done|].
  simpl. rewrite M_bind_run.
  unfold _slot_has_capacity at 1. rewrite M_bind_run. simpl.
  rewrite M_bind_run, IH. rewrite filter_cons.
  destruct (Z.leb_spec (units_used L (isoformat op) x + u) CAPACITY_UNITS).
  - rewrite decide_True by done. done.
  - rewrite decide_False by lia. done.
Qed.

(** The availability query, given what the resolver returns. *)
Lemma get_available_slots_resolved
  (s : string) (size : dog_size) (L : ledger)
  (op : date) (notes : list string) (is_open : bool) :
  _resolve_operating_day s = Ok (op, notes, is_open) →
  get_available_slots s size L =
  (L, Ok (if is_open then
            Availability s (isoformat op)
              (filter (fun slot => units_used L (isoformat op) slot +
                                   DOG_SIZE_UNITS size ≤ CAPACITY_UNITS)
                      SLOT_TIMES)
              notes
          else
            Availability s (isoformat op) []
              (if is_empty notes
               then [isoformat op +:+ " is outside operating days."]
               else notes))).
Proof.
  intros E. unfold get_available_slots. rewrite M_bind_run.
  unfold lift. rewrite E. destruct is_open; [|done].
  cbv beta iota. change (negb true) with false. cbv iota.
  rewrite M_bind_run, filterM_slot_has_capacity. done.
Qed.

Lemma get_available_slots_raise
  (s : string) (size : dog_size) (L : ledger) (e : exn) :
  _resolve_operating_day s = Raise e →
  get_available_slots s size L = (L, Raise e).
Proof.
  intros E. unfold get_available_slots. rewrite M_bind_run.
  unfold lift. by rewrite E.
Qed.

Lemma book_raise
  (dog : string) (size : dog_size) (s t cust phone : string)
  (L : ledger) (e : exn) :
  _resolve_operating_day s = Raise e →
  book_grooming_appointment dog size s t cust phone L = (L, Raise e).
Proof.
  intros E. unfold book_grooming_appointment. rewrite M_bind_run.
  unfold lift. by rewrite E.
Qed.

(** The booking commit, given what the resolver returns: the three
    failures in the order they are tested, then the reservation. *)
Lemma book_resolved
  (dog : string) (size : dog_size) (s t cust phone : string) (L : ledger)
  (op : date) (notes : list string) (is_open : bool) :
  _resolve_operating_day s = Ok (op, notes, is_open) →
  let key := isoformat op in
  let u := DOG_SIZE_UNITS size in
  ∃ L' r,
    book_grooming_appointment dog size s t cust phone L = (L', r) ∧
    ((is_open = false ∧ r = Raise (ValueError (closed_message op)) ∧ L' = L) ∨
     (is_open = true ∧ ¬ (t ∈ SLOT_TIMES) ∧
      r = Raise (ValueError invalid_time_message) ∧ L' = L) ∨
     (is_open = true ∧ t ∈ SLOT_TIMES ∧
      CAPACITY_UNITS < units_used L key t + u ∧
      r = Raise (ValueError slot_full_message) ∧
      ∀ k x, units_used L' k x = units_used L k x) ∨
     (is_open = true ∧ t ∈ SLOT_TIMES ∧
      units_used L key t + u ≤ CAPACITY_UNITS ∧
      r = Ok (Booking dog size key t cust phone "Booked" notes) ∧
      ∀ k x, units_used L' k x =
             if decide (k = key ∧ x = t) then units_used L key t + u
             else units_used L k x)).
Proof.
  intros E key u. unfold book_grooming_appointment. rewrite M_bind_run.
  unfold lift. rewrite E. cbv beta iota.
  destruct is_open; [|eexists _, _; split; [reflexivity|]; left; done].
  change (negb true) with false. cbv iota.
  pose proof (string_in_elem t SLOT_TIMES) as Hin.
  destruct (string_in t SLOT_TIMES).
  2: { eexists _, _. split; [reflexivity|]. right; left.
       repeat split; [|done..]. intros H. apply Hin in H. done. }
  change (negb true) with false. cbv iota. fold key u.
  destruct (setdefault_spec key L) as (L1 & E1 & Hk1 & Hu1).
  rewrite M_bind_run, E1.
  change (default 0 (default ∅ (L !! key) !! t)) with (units_used L key t).
  destruct (Z.ltb_spec CAPACITY_UNITS (units_used L key t + u)) as [Hfull|Hroom].
  { eexists _, _. split; [reflexivity|]. right; right; left.
    repeat split; [by apply Hin|done..]. }
  destruct (set_slot_spec key t (units_used L key t + u) L1) as (L2 & E2 & Hu2).
  rewrite M_bind_run, E2.
  eexists _, _. split; [reflexivity|]. right; right; right.
  repeat split; [by apply Hin|done|].
  intros k x. rewrite Hu2, Hu1. done.
Qed.

Lemma current_bookings_within_capacity : within_capacity CURRENT_BOOKINGS.
Proof.
  intros k x. unfold CURRENT_BOOKINGS, CAPACITY_UNITS.
  rewrite !units_used_insert.
  repeat case_decide; rewrite ?lookup_singleton; repeat case_decide;
    simpl; try lia.
  unfold units_used. rewrite lookup_empty. simpl. rewrite lookup_empty.
  simpl. lia.
Qed.

Lemma units_size_range (size : dog_size) : 1 ≤ DOG_SIZE_UNITS size ≤ 2.
Proof. destruct size; simpl; lia. Qed.

(** One commit attempt: no count goes down, and the bound is kept. *)
Lemma commit_step (rq : booking_request) (L : ledger) :
  (∀ k x, units_used L k x ≤ units_used (fst (commit rq L)) k x) ∧
  (within_capacity L → within_capacity (fst (commit rq L))).
Proof.
  unfold commit.
  destruct (_resolve_operating_day (rq_requested_date rq))
    as [[[op notes] is_open]|e] eqn:E.
  2: { rewrite (book_raise _ _ _ _ _ _ _ _ E). simpl. split; [lia|done]. }
  destruct (book_resolved (rq_dog_name rq) (rq_dog_size rq) _
              (rq_requested_time rq) (rq_customer_name rq)
              (rq_contact_number rq) L _ _ _ E)
    as (L' & r & -> & [(_ & _ & ->)|[(_ & _ & _ & ->)|
                      [(_ & _ & _ & _ & Hu)|(_ & _ & Hroom & _ & Hu)]]]);
    simpl.
  - split; [lia|done].
  - split; [lia|done].
  - split; [intros k x; rewrite Hu; lia|].
    intros Hc k x. rewrite Hu. apply Hc.
  - pose proof (units_size_range (rq_dog_size rq)) as Hsz. split.
    + intros k x. rewrite Hu. case_decide as Hk; [|lia].
      destruct Hk as [-> ->]. lia.
    + intros Hc k x. rewrite Hu. case_decide; [|apply Hc].
      specialize (Hc (isoformat op) (rq_requested_time rq)). lia.
Qed.

End ledger_facts.

(** * The claims of the specification *)

(** ** Capacity ledger *)

(** C1: for every (date, slot) key, after any sequence of booking-commit
    attempts starting from the pre-seeded ledger, the units used are
    between 0 and [CAPACITY_UNITS] (2); every commit attempt keeps a
    ledger within that bound, and neither a commit attempt nor an
    availability query ever lowers an entry. *)
Theorem capacity_invariant :
  (∀ (rqs : list booking_request) (day_key slot : string),
     0 ≤ units_used (ledger_after rqs CURRENT_BOOKINGS) day_key slot
       ≤ CAPACITY_UNITS) ∧
  (∀ (L : ledger) (rq : booking_request),
     within_capacity L → within_capacity (fst (commit rq L))) ∧
  (∀ (L : ledger) (rq : booking_request) (day_key slot : string),
     units_used L day_key slot ≤ units_used (fst (commit rq L)) day_key slot) ∧
  (∀ (L : ledger) (requested_date : string) (size : dog_size)
     (day_key slot : string),
     units_used L day_key slot ≤
     units_used (fst (get_available_slots requested_date size L)) day_key slot).
Proof.
  split; [|split; [|split]].
  - intros rqs. unfold ledger_after.
    generalize current_bookings_within_capacity.
    generalize CURRENT_BOOKINGS as L. induction rqs as [|rq rqs IH]; intros L HL.
    + exact HL.
    + simpl. apply IH. by apply commit_step.
  - intros L rq. apply commit_step.
  - intros L rq. apply commit_step.
  - intros L s size k x.
    destruct (_resolve_operating_day s) as [[[op notes] is_open]|e] eqn:E.
    + rewrite (get_available_slots_resolved _ _ _ _ _ _ E). simpl. lia.
    + rewrite (get_available_slots_raise _ _ _ _ E). simpl. lia.
Qed.

Lemma capacity_invariant_witness :
  within_capacity
    (fst (commit (BookingRequest "Luna" medium "2024-07-17" "10:30"
                                 "Sarah Chen" "555-0123")
                 CURRENT_BOOKINGS)).
Proof.
  apply (proj1 (proj2 capacity_invariant)).
  exact current_bookings_within_capacity.
Defined.

(** C9: the availability query performs no writes: after any call, on any
    input, the ledger is the one it was called with, so the units used are
    unchanged for every key. *)
Theorem availability_query_no_writes
  (requested_date : string) (size : dog_size) (L : ledger) :
  fst (get_available_slots requested_date size L) = L ∧
  ∀ day_key slot,
    units_used (fst (get_available_slots requested_date size L)) day_key slot =
    units_used L day_key slot.
Proof.
  assert (E : fst (get_available_slots requested_date size L) = L).
  { destruct (_resolve_operating_day requested_date)
      as [[[op notes] is_open]|e] eqn:E.
    - by rewrite (get_available_slots_resolved _ _ _ _ _ _ E).
    - by rewrite (get_available_slots_raise _ _ _ _ E). }
  split; [exact E|]. intros k x. by rewrite E.
Qed.

(** C6: on an open operating date, for every unit size, the list the
    availability query returns holds exactly the slots of the fixed
    sequence with [units_used + units_needed <= CAPACITY_UNITS], in the
    order of the fixed sequence. *)
Theorem available_slots_exact
  (requested_date : string) (size : dog_size) (L : ledger)
  (op : date) (notes : list string) :
  _resolve_operating_day requested_date = Ok (op, notes, true) →
  ∃ a, get_available_slots requested_date size L = (L, Ok a) ∧
       av_operating_date a = isoformat op ∧
       (∀ slot, slot ∈ av_available_slots a ↔
                slot ∈ SLOT_TIMES ∧
                units_used L (isoformat op) slot + DOG_SIZE_UNITS size
                  ≤ CAPACITY_UNITS) ∧
       sublist (av_available_slots a) SLOT_TIMES.
Proof.
  intros E. eexists. split.
  { rewrite (get_available_slots_resolved _ _ _ _ _ _ E). reflexivity. }
  simpl. split; [done|]. split.
  - intros slot. rewrite list_elem_of_filter. tauto.
  - apply sublist_filter.
Qed.

Lemma available_slots_exact_witness :
  ∃ a, get_available_slots "2024-07-10" large CURRENT_BOOKINGS
         = (CURRENT_BOOKINGS, Ok a) ∧
       av_operating_date a = "2024-07-10" ∧
       (∀ slot, slot ∈ av_available_slots a ↔
                slot ∈ SLOT_TIMES ∧
                units_used CURRENT_BOOKINGS "2024-07-10" slot + 2
                  ≤ CAPACITY_UNITS) ∧
       sublist (av_available_slots a) SLOT_TIMES.
Proof.
  apply (available_slots_exact "2024-07-10" large CURRENT_BOOKINGS
           (Date 2024 7 10) []).
  vm_compute. reflexivity.
Defined.

(** ** Booking commit *)

(** C7, as the specification states it, fails on a requested date that
    the date parser rejects: the commit fails with the parser's error,
    which is none of the three errors of the commit itself, although no
    operating day is resolved and the requested time is in the fixed slot
    sequence. *)
Lemma booking_commit_raises_on_malformed_date :
  book_grooming_appointment "Luna" medium "2024-02-30" "10:30"
                            "Sarah Chen" "555-0123" CURRENT_BOOKINGS =
    (CURRENT_BOOKINGS, Raise LibValueError) ∧
  _resolve_operating_day "2024-02-30" = Raise LibValueError ∧
  "10:30" ∈ SLOT_TIMES ∧
  (∀ msg, LibValueError ≠ ValueError msg).
Proof.
  split; [apply book_raise; vm_compute; reflexivity|].
  split; [vm_compute; reflexivity|].
  split; [apply string_in_elem; vm_compute; reflexivity|].
  discriminate.
Qed.

(** C7, amended: the booking commit fails exactly when the date parser
    raises on the requested date (the parser's error), or the resolved
    operating day is closed (closed-day error), or the requested time is
    not in the fixed slot sequence (invalid-time error, whatever the
    capacity), or [units_used + units_needed] would exceed
    [CAPACITY_UNITS] (slot-full error); every failure leaves the units
    used unchanged for every key; otherwise the commit returns a booking
    with status Booked and has added [units_needed] to the units used of
    that date and slot, and to no other. *)
Theorem booking_commit_outcomes
  (dog : string) (size : dog_size) (requested_date requested_time : string)
  (customer phone : string) (L : ledger) :
  ∃ L' r,
    book_grooming_appointment dog size requested_date requested_time
                              customer phone L = (L', r) ∧
    (∀ e, r = Raise e → ∀ k x, units_used L' k x = units_used L k x) ∧
    ((∃ e, _parse_date requested_date = Raise e ∧ r = Raise e) ∨
     (∃ (d op : date) (notes : list string) (is_open : bool),
        _parse_date requested_date = Ok d ∧
        _resolve_operating_day requested_date = Ok (op, notes, is_open) ∧
        let key := isoformat op in
        let units_needed := DOG_SIZE_UNITS size in
        ((is_open = false ∧
          r = Raise (ValueError (closed_message op))) ∨
         (is_open = true ∧ ¬ (requested_time ∈ SLOT_TIMES) ∧
          r = Raise (ValueError invalid_time_message)) ∨
         (is_open = true ∧ requested_time ∈ SLOT_TIMES ∧
          CAPACITY_UNITS < units_used L key requested_time + units_needed ∧
          r = Raise (ValueError slot_full_message)) ∨
         (is_open = true ∧ requested_time ∈ SLOT_TIMES ∧
          units_used L key requested_time + units_needed ≤ CAPACITY_UNITS ∧
          r = Ok (Booking dog size key requested_time customer phone
                          "Booked" notes) ∧
          units_used L' key requested_time =
            units_used L key requested_time + units_needed ∧
          ∀ k x, ¬ (k = key ∧ x = requested_time) →
                 units_used L' k x = units_used L k x)))).
Proof.
  destruct (_parse_date requested_date) as [d|e] eqn:Ep.
  2: { assert (E : _resolve_operating_day requested_date = Raise e)
         by (unfold _resolve_operating_day; by rewrite Ep).
       exists L, (Raise e). split; [by apply book_raise|].
       split; [done|]. left. by exists e. }
  destruct (resolve_date_spec d (parse_date_valid _ _ Ep))
    as (op & sn & cl & fo & _ & _ & E & _).
  rewrite <- (resolve_operating_day_parsed _ _ Ep) in E.
  destruct (book_resolved dog size requested_date requested_time customer
              phone L op _ _ E)
    as (L' & r & Eb & H).
  exists L', r. split; [exact Eb|]. split.
  - intros e ->.
    destruct H as [(_ & _ & ->)|[(_ & _ & _ & ->)|
                  [(_ & _ & _ & _ & Hu)|(_ & _ & _ & [=] & _)]]]; done.
  - right. eexists d, op, _, _. split; [reflexivity|]. split; [exact E|].
    cbv zeta.
    destruct H as [(H1 & H2 & _)|[(H1 & H2 & H3 & _)|
                  [(H1 & H2 & H3 & H4 & _)|(H1 & H2 & H3 & H4 & Hu)]]].
    + left. done.
    + right; left. done.
    + right; right; left. done.
    + right; right; right. repeat split; [done..| |].
      * rewrite Hu. by rewrite decide_True.
      * intros k x Hne. rewrite Hu. by rewrite decide_False.
Qed.

Lemma booking_commit_outcomes_witness :
  ∃ L',
    book_grooming_appointment "Luna" medium "2024-07-17" "09:15"
                              "Sarah Chen" "555-0123" CURRENT_BOOKINGS
      = (L', Raise (ValueError invalid_time_message)) ∧
    ∀ k x, units_used L' k x = units_used CURRENT_BOOKINGS k x.
Proof.
  destruct (booking_commit_outcomes "Luna" medium "2024-07-17" "09:15"
              "Sarah Chen" "555-0123" CURRENT_BOOKINGS)
    as (L' & r & Eb & Hfail & Hcases).
  assert (Er : _resolve_operating_day "2024-07-17" = Ok (Date 2024 7 17, [], true))
    by (vm_compute; reflexivity).
  assert (Ep : _parse_date "2024-07-17" = Ok (Date 2024 7 17))
    by (vm_compute; reflexivity).
  destruct Hcases as [(e & Ep' & _)|(d & op & notes & is_open & _ & Er' & H)].
  { rewrite Ep in Ep'. discriminate Ep'. }
  rewrite Er in Er'. injection Er' as <- <- <-.
  destruct H as [(H & _)|[(_ & _ & Hr)|[(_ & Hin & _)|(_ & Hin & _)]]].
  - discriminate H.
  - exists L'. rewrite Hr in Eb. split; [exact Eb|]. exact (Hfail _ Hr).
  - exfalso. apply string_in_elem in Hin. vm_compute in Hin. discriminate Hin.
  - exfalso. apply string_in_elem in Hin. vm_compute in Hin. discriminate Hin.
Defined.

(** C8: if a slot is in the list the availability query returns, a booking
    commit made right after it for the same requested date, slot and unit
    size succeeds, and afterwards the units used of the operating date and
    slot are the units used before plus the unit cost of the size. *)
Theorem booking_round_trip
  (requested_date : string) (size : dog_size) (L : ledger)
  (a : availability) (slot : string) (dog customer phone : string) :
  snd (get_available_slots requested_date size L) = Ok a →
  slot ∈ av_available_slots a →
  ∃ op notes L' b,
    _resolve_operating_day requested_date = Ok (op, notes, true) ∧
    av_operating_date a = isoformat op ∧
    book_grooming_appointment dog size requested_date slot customer phone
      (fst (get_available_slots requested_date size L)) = (L', Ok b) ∧
    bk_status b = "Booked" ∧ bk_date b = isoformat op ∧ bk_time b = slot ∧
    units_used L' (isoformat op) slot =
      units_used L (isoformat op) slot + DOG_SIZE_UNITS size.
Proof.
  intros Ea Hin.
  destruct (_resolve_operating_day requested_date)
    as [[[op notes] is_open]|e] eqn:E.
  2: { rewrite (get_available_slots_raise _ _ _ _ E) in Ea. discriminate Ea. }
  rewrite (get_available_slots_resolved _ _ _ _ _ _ E) in *. simpl in *.
  destruct is_open.
  2: { injection Ea as <-. simpl in Hin. by apply elem_of_nil in Hin. }
  injection Ea as <-. simpl in Hin.
  apply list_elem_of_filter in Hin as [Hroom Hslot].
  destruct (book_resolved dog size requested_date slot customer phone L
              op notes true E)
    as (L' & r & Eb & [(H & _)|[(_ & Hn & _)|[(_ & _ & Hfull & _)|
                      (_ & _ & _ & -> & Hu)]]]); [done|done|lia|].
  exists op, notes, L'. eexists. split; [done|]. split; [done|].
  split; [exact Eb|]. repeat split.
  rewrite Hu. by rewrite decide_True.
Qed.

Lemma booking_round_trip_witness :
  ∃ op notes L' b,
    _resolve_operating_day "2024-07-17" = Ok (op, notes, true) ∧
    "2024-07-17" = isoformat op ∧
    book_grooming_appointment "Luna" medium "2024-07-17" "10:30"
      "Sarah Chen" "555-0123"
      (fst (get_available_slots "2024-07-17" medium CURRENT_BOOKINGS))
      = (L', Ok b) ∧
    bk_status b = "Booked" ∧ bk_date b = isoformat op ∧ bk_time b = "10:30" ∧
    units_used L' (isoformat op) "10:30" =
      units_used CURRENT_BOOKINGS (isoformat op) "10:30" + 1.
Proof.
  apply (booking_round_trip "2024-07-17" medium CURRENT_BOOKINGS
           (Availability "2024-07-17" "2024-07-17" SLOT_TIMES [])
           "10:30" "Luna" "Sarah Chen" "555-0123").
  - vm_compute. reflexivity.
  - apply string_in_elem. vm_compute. reflexivity.
Defined.

(** ** Calendar resolver *)

(** C2, as the specification states it, fails in a year whose December 25
    is a Monday: the request is shifted to Thursday December 28, which
    resolves as open. *)
Lemma christmas_day_2023_resolves_open :
  weekday (Date 2023 12 25) = 0 ∧
  _resolve_operating_day "2023-12-25" =
    Ok (Date 2023 12 28,
        ["2023-12-25 is a bank holiday, booking moved to 2023-12-28."],
        true).
Proof. split; vm_compute; reflexivity. Qed.

(** C2, amended: for every year, a request for December 25 resolves as
    closed when December 25 falls on Wednesday to Sunday, with a note
    that the operating date falls on a closed weekday (after the shift
    note, on a Wednesday); when it falls on Monday or Tuesday the request
    is shifted to the Thursday of that week, December 28 or 27, which
    resolves as open with the shift note alone. *)
Theorem christmas_day_resolution (y : Z) :
  MINYEAR ≤ y ≤ MAXYEAR →
  let d := Date y 12 25 in
  (weekday d ≤ 1 →
   let op := Date y 12 (28 - weekday d) in
   weekday op = 3 ∧
   _resolve_operating_day (isoformat d) =
     Ok (op, [bank_holiday_note d op], true)) ∧
  (weekday d = 2 →
   let op := Date y 12 26 in
   _resolve_operating_day (isoformat d) =
     Ok (op, [bank_holiday_note d op; weekday_closed_note op], false)) ∧
  (3 ≤ weekday d →
   _resolve_operating_day (isoformat d) =
     Ok (d, [weekday_closed_note d], false)).
Proof.
  intros Hy. cbv zeta.
  assert (Hv : valid_date (Date y 12 25)) by (by apply valid_date_intro).
  pose proof (weekday_range (Date y 12 25)) as Hw.
  rewrite (resolve_operating_day_parsed _ _ (parse_isoformat _ Hv)).
  set (wd := weekday (Date y 12 25)) in *.
  assert (Hshift : wd ≤ 2 →
            _shift_bank_holiday (Date y 12 25) =
              Ok (Date y 12 (28 - wd),
                  [bank_holiday_note (Date y 12 25) (Date y 12 (28 - wd))],
                  true) ∧
            valid_date (Date y 12 (28 - wd)) ∧
            weekday (Date y 12 (28 - wd)) = 3).
  { intros Hw2.
    destruct (shift_bank_holiday_spec _ Hv)
      as [(_ & [Hn|Hn])|(d' & Es & _ & _ & Ea & Hv' & _ & Hw')].
    - fold wd in Hn. lia.
    - rewrite (christmas_is_bank_holiday y Hy) in Hn. discriminate Hn.
    - fold wd in Ea.
      assert (Hvo : valid_date (Date y 12 (25 + (3 - wd))))
        by (apply valid_date_intro; [done..|unfold days_in_month; simpl; lia]).
      rewrite (date_add_same_month _ _ _ _ Hv Hvo) in Ea.
      injection Ea as <-.
      replace (25 + (3 - wd)) with (28 - wd) in * by lia.
      done. }
  split; [|split].
  - intros Hw1. destruct (Hshift ltac:(lia)) as (Es & Hvo & Hwo).
    split; [exact Hwo|].
    destruct (ensure_operating_day_spec _ true Hvo) as (shut & Eshut & Ee).
    destruct (christmas_shutdown_spec _ Hvo) as (shut' & Eshut' & _ & Hs).
    rewrite Eshut' in Eshut. injection Eshut as ->.
    assert (shut = false) as ->.
    { destruct shut; [|done]. destruct (Hs eq_refl) as (_ & _ & Hwd).
      rewrite Hwo in Hwd. simpl in Hwd. lia. }
    rewrite (resolve_date_compute _ _ _ _ _ Es Ee), Hwo. reflexivity.
  - intros Hw2. destruct (Hshift ltac:(lia)) as (Es & Hvo & Hwo).
    rewrite Hw2 in Es, Hvo, Hwo. change (28 - 2) with 26 in *.
    destruct (ensure_operating_day_spec _ true Hvo) as (shut & Eshut & Ee).
    destruct (christmas_shutdown_spec _ Hvo) as (shut' & Eshut' & Hs & _).
    rewrite Eshut' in Eshut. injection Eshut as ->.
    rewrite (Hs eq_refl ltac:(simpl; lia)) in Ee.
    rewrite (resolve_date_compute _ _ _ _ _ Es Ee), Hwo. reflexivity.
  - intros Hw3.
    assert (Ho : Z_in wd OPEN_WEEKDAYS = false).
    { destruct (Z_in wd OPEN_WEEKDAYS) eqn:E; [|done].
      apply open_weekday_iff in E. fold wd in E. lia. }
    assert (Es : _shift_bank_holiday (Date y 12 25) = Ok (Date y 12 25, [], false))
      by (unfold _shift_bank_holiday; fold wd; by rewrite Ho).
    destruct (ensure_operating_day_spec _ false Hv) as (shut & _ & Ee).
    fold wd in Ee. rewrite Ho in Ee. simpl in Ee.
    rewrite (resolve_date_compute _ _ _ _ _ Es Ee). fold wd.
    rewrite Ho. reflexivity.
Qed.

Lemma christmas_day_resolution_witness :
  _resolve_operating_day (isoformat (Date 2024 12 25)) =
    Ok (Date 2024 12 26,
        [bank_holiday_note (Date 2024 12 25) (Date 2024 12 26);
         weekday_closed_note (Date 2024 12 26)],
        false).
Proof.
  apply (proj1 (proj2 (christmas_day_resolution 2024
                         ltac:(unfold MINYEAR, MAXYEAR; lia)))).
  vm_compute. reflexivity.
Defined.

(** C3: the code at the failing input.  December 26 of 2023 is a Tuesday;
    the first Monday after it and the two days after that are January 1,
    2 and 3 of 2024, and the window the code computes holds them.  The
    shutdown test compares the day with December 26 of the day's own year,
    so it says no on each of them, and the three requests resolve as open,
    with no note.  The days of the window that fall in December are
    closed, forced open or not ([shutdown_window_closed_in_december]);
    outside December the test never says yes
    ([christmas_shutdown_only_in_december]). *)
Theorem january_shutdown_days_resolve_open :
  weekday (Date 2023 12 26) = 1 ∧
  shutdown_window (Date 2023 12 26) =
    Ok [Date 2024 1 1; Date 2024 1 2; Date 2024 1 3] ∧
  _is_christmas_shutdown (Date 2024 1 1) = Ok false ∧
  _ensure_operating_day (Date 2024 1 1) false = Ok (Date 2024 1 1, []) ∧
  _resolve_operating_day "2024-01-01" = Ok (Date 2024 1 1, [], true) ∧
  _resolve_operating_day "2024-01-02" = Ok (Date 2024 1 2, [], true) ∧
  _resolve_operating_day "2024-01-03" = Ok (Date 2024 1 3, [], true).
Proof. repeat split; vm_compute; reflexivity. Qed.




(** C5: a requested date that falls on Monday, Tuesday or Wednesday and
    is a recognised holiday of its year is shifted forward by
    [3 - weekday] days, to the Thursday of its week; the shift is recorded
    in a note and the shifted date is marked force-open, and the resolver
    returns that Thursday as the operating date with the shift note first.
    In particular, for every year, a request for the last Monday of May
    resolves to the Thursday of that week, open, with the shift note. *)
Theorem bank_holiday_shift :
  (∀ (requested_date : string) (d : date),
     _parse_date requested_date = Ok d →
     0 ≤ weekday d ≤ 2 → _is_bank_holiday d = Ok true →
     ∃ thursday closure is_open,
       date_add d (3 - weekday d) = Ok thursday ∧
       toordinal thursday = toordinal d + (3 - weekday d) ∧
       weekday thursday = 3 ∧
       _shift_bank_holiday d =
         Ok (thursday, [bank_holiday_note d thursday], true) ∧
       _resolve_operating_day requested_date =
         Ok (thursday, bank_holiday_note d thursday :: closure, is_open)) ∧
  (∀ y : Z,
     MINYEAR ≤ y ≤ MAXYEAR →
     ∃ monday thursday,
       _last_weekday_of_month y 5 0 = Ok monday ∧
       year monday = y ∧ month monday = 5 ∧ weekday monday = 0 ∧
       toordinal thursday = toordinal monday + 3 ∧ weekday thursday = 3 ∧
       _resolve_operating_day (isoformat monday) =
         Ok (thursday, [bank_holiday_note monday thursday], true)).
Proof.
  split.
  - intros s d Ep Hw Hh. pose proof (parse_date_valid _ _ Ep) as Hv.
    destruct (shift_bank_holiday_spec d Hv)
      as [(_ & [Hn|Hn])|(d' & Es & _ & _ & Ea & Hv' & Ho & Hw')];
      [done|rewrite Hh in Hn; discriminate Hn|].
    destruct (ensure_operating_day_spec d' true Hv') as (shut & _ & Ee).
    eexists d', _, _. do 4 (split; [done|]).
    rewrite (resolve_operating_day_parsed _ _ Ep).
    rewrite (resolve_date_compute _ _ _ _ _ Es Ee). reflexivity.
  - intros y Hy.
    destruct (last_weekday_of_month_spec y 5 0) as (j & Hj & Em & _);
      [done|lia|lia|].
    destruct (last_monday_of_may_is_bank_holiday y _ Hy Em)
      as (Hh & Hyr & Hmo & Hday & Hw & Hv).
    set (monday := Date y 5 (monthrange_last y 5 - j)) in *.
    destruct (shift_bank_holiday_spec monday Hv)
      as [(_ & [Hn|Hn])|(d' & Es & _ & _ & Ea & Hv' & Ho & Hw')];
      [lia|rewrite Hh in Hn; discriminate Hn|].
    rewrite Hw in Ho, Ea.
    exists monday, d'. do 4 (split; [done|]). split; [lia|]. split; [done|].
    rewrite (resolve_operating_day_parsed _ _ (parse_isoformat _ Hv)).
    destruct (ensure_operating_day_spec d' true Hv') as (shut & Eshut & Ee).
    assert (Hv30 : valid_date (Date y 6 30)) by (by apply valid_date_intro).
    destruct (between_dates d' monday (Date y 6 30) Hv' Hv Hv30 Hyr) as [_ Hm].
    { split; [lia|]. rewrite Ho. unfold toordinal, monday, days_before_month.
      simpl. unfold monthrange_last. simpl. lia. }
    simpl in Hm.
    rewrite (christmas_shutdown_only_in_december d' Hv' ltac:(lia)) in Eshut.
    injection Eshut as <-.
    rewrite (resolve_date_compute _ _ _ _ _ Es Ee), Hw'. reflexivity.
Qed.

Lemma bank_holiday_shift_witness :
  ∃ thursday closure is_open,
    date_add (Date 2024 5 27) (3 - weekday (Date 2024 5 27)) = Ok thursday ∧
    toordinal thursday =
      toordinal (Date 2024 5 27) + (3 - weekday (Date 2024 5 27)) ∧
    weekday thursday = 3 ∧
    _shift_bank_holiday (Date 2024 5 27) =
      Ok (thursday, [bank_holiday_note (Date 2024 5 27) thursday], true) ∧
    _resolve_operating_day "2024-05-27" =
      Ok (thursday, bank_holiday_note (Date 2024 5 27) thursday :: closure,
          is_open).
Proof.
  apply (proj1 bank_holiday_shift "2024-05-27" (Date 2024 5 27)).
  - vm_compute. reflexivity.
  - vm_compute. split; discriminate.
  - vm_compute. reflexivity.
Defined.

(** C10: for every parseable requested date the resolver returns, and the
    operating date is never earlier than the requested date; whenever it
    differs from the requested date it is exactly [3 - weekday] days
    later, which is the Thursday of the same Monday-to-Sunday week, and
    never any other weekday. *)
Theorem operating_date_not_earlier (requested_date : string) (d : date) :
  _parse_date requested_date = Ok d →
  ∃ op notes is_open,
    _resolve_operating_day requested_date = Ok (op, notes, is_open) ∧
    date_leb d op = true ∧ toordinal d ≤ toordinal op ∧
    (op ≠ d →
     0 ≤ weekday d ≤ 2 ∧
     toordinal op = toordinal d + (3 - weekday d) ∧
     weekday op = 3 ∧
     toordinal op - weekday op = toordinal d - weekday d).
Proof.
  intros Ep. pose proof (parse_date_valid _ _ Ep) as Hv.
  rewrite (resolve_operating_day_parsed _ _ Ep).
  destruct (shift_bank_holiday_spec d Hv)
    as [(Es & _)|(d' & Es & Hw & _ & _ & Hv' & Ho & Hw')].
  - destruct (ensure_operating_day_spec d false Hv) as (shut & _ & Ee).
    eexists d, _, _. split; [exact (resolve_date_compute _ _ _ _ _ Es Ee)|].
    split; [by apply date_leb_toordinal|]. split; [lia|]. done.
  - destruct (ensure_operating_day_spec d' true Hv') as (shut & _ & Ee).
    eexists d', _, _. split; [exact (resolve_date_compute _ _ _ _ _ Es Ee)|].
    split; [apply date_leb_toordinal; [done..|lia]|]. split; [lia|].
    intros _. repeat split; lia.
Qed.

Lemma operating_date_not_earlier_witness :
  ∃ op notes is_open,
    _resolve_operating_day "2024-08-26" = Ok (op, notes, is_open) ∧
    date_leb (Date 2024 8 26) op = true ∧
    toordinal (Date 2024 8 26) ≤ toordinal op ∧
    (op ≠ Date 2024 8 26 →
     0 ≤ weekday (Date 2024 8 26) ≤ 2 ∧
     toordinal op =
       toordinal (Date 2024 8 26) + (3 - weekday (Date 2024 8 26)) ∧
     weekday op = 3 ∧
     toordinal op - weekday op =
       toordinal (Date 2024 8 26) - weekday (Date 2024 8 26)).
Proof.
  apply (operating_date_not_earlier "2024-08-26" (Date 2024 8 26)).
  vm_compute. reflexivity.
Defined.

(** * Further properties of the code *)

(** ** Calendar helpers *)

(** X1: [_last_weekday_of_month] returns, for every year, month and
    weekday, a date of that month on that weekday, and no later day of the
    month falls on that weekday. *)
Theorem last_weekday_of_month_is_last (y m wd : Z) :
  MINYEAR ≤ y ≤ MAXYEAR → 1 ≤ m ≤ 12 → 0 ≤ wd ≤ 6 →
  ∃ r, _last_weekday_of_month y m wd = Ok r ∧ valid_date r ∧
       year r = y ∧ month r = m ∧ weekday r = wd ∧
       ∀ d, valid_date d → year d = y → month d = m → weekday d = wd →
            day d ≤ day r.
Proof.
  intros Hy Hm Hwd.
  destruct (last_weekday_of_month_spec y m wd Hy Hm Hwd)
    as (j & Hj & -> & Hv & Hw).
  destruct (monthrange_last_days y m Hm) as [El _].
  eexists. split; [reflexivity|]. do 4 (split; [done|]).
  intros [y' m' dd] Hvd Ey Em Hwdd. simpl in *. subst y' m'.
  destruct (valid_date_fields _ Hvd) as (_ & _ & Hdd). simpl in Hdd.
  destruct (Z_le_gt_dec dd (monthrange_last y m - j)) as [|Hgt]; [done|].
  exfalso.
  pose proof (weekday_same_month y m (monthrange_last y m - j)
                (dd - (monthrange_last y m - j))) as Hs.
  replace (monthrange_last y m - j + (dd - (monthrange_last y m - j)))
    with dd in Hs by lia.
  rewrite Hw, Hwdd in Hs. revert Hs. Z.div_mod_to_equations. lia.
Qed.

Lemma last_weekday_of_month_is_last_witness :
  ∃ r, _last_weekday_of_month 2024 5 0 = Ok r ∧ valid_date r ∧
       year r = 2024 ∧ month r = 5 ∧ weekday r = 0 ∧
       ∀ d, valid_date d → year d = 2024 → month d = 5 → weekday d = 0 →
            day d ≤ day r.
Proof.
  apply (last_weekday_of_month_is_last 2024 5 0);
    unfold MINYEAR, MAXYEAR; lia.
Defined.

(** The holidays of a year, as the list the code builds. *)
Lemma bank_holidays_for_year_list (y : Z) :
  MINYEAR ≤ y ≤ MAXYEAR →
  ∃ may august,
    _last_weekday_of_month y 5 0 = Ok may ∧
    _last_weekday_of_month y 8 0 = Ok august ∧
    _bank_holidays_for_year y =
      Ok ([may; august; Date y 12 25] ++
          (if weekday (Date y 12 25) =? 5 then [Date y 12 27]
           else if weekday (Date y 12 25) =? 6 then [Date y 12 26]
           else [])) ∧
    (weekday (Date y 12 25) = 5 → weekday (Date y 12 27) = 0) ∧
    (weekday (Date y 12 25) = 6 → weekday (Date y 12 26) = 0).
Proof.
  intros Hy.
  destruct (last_weekday_of_month_spec y 5 0) as (j5 & _ & E5 & _);
    [done|lia|lia|].
  destruct (last_weekday_of_month_spec y 8 0) as (j8 & _ & E8 & _);
    [done|lia|lia|].
  eexists _, _. split; [exact E5|]. split; [exact E8|].
  assert (Hvc : valid_date (Date y 12 25)) by (by apply valid_date_intro).
  split; [|split].
  - unfold _bank_holidays_for_year.
    rewrite E5, bind_Ok, E8, bind_Ok, (date_new_valid _ _ _ Hvc), bind_Ok.
    cbv zeta.
    destruct (weekday (Date y 12 25) =? 5).
    { assert (Hvs : valid_date (Date y 12 (25 + 2))) by (by apply valid_date_intro).
      rewrite (date_add_same_month _ _ _ _ Hvc Hvs). reflexivity. }
    destruct (weekday (Date y 12 25) =? 6).
    { assert (Hvs : valid_date (Date y 12 (25 + 1))) by (by apply valid_date_intro).
      rewrite (date_add_same_month _ _ _ _ Hvc Hvs). reflexivity. }
    reflexivity.
  - intros E. pose proof (weekday_same_month y 12 25 2) as Hs.
    rewrite E in Hs. exact Hs.
  - intros E. pose proof (weekday_same_month y 12 25 1) as Hs.
    rewrite E in Hs. exact Hs.
Qed.

(** X2: the holidays of a year are the last Monday of May, the last
    Monday of August and December 25, and one substitute when December 25
    falls on a weekend: December 27 after a Saturday, December 26 after
    a Sunday.  The substitute is a Monday, and no other date is added. *)
Theorem bank_holidays_exact (y : Z) :
  MINYEAR ≤ y ≤ MAXYEAR →
  ∃ may august,
    _last_weekday_of_month y 5 0 = Ok may ∧
    _last_weekday_of_month y 8 0 = Ok august ∧
    _bank_holidays_for_year y =
      Ok ([may; august; Date y 12 25] ++
          (if weekday (Date y 12 25) =? 5 then [Date y 12 27]
           else if weekday (Date y 12 25) =? 6 then [Date y 12 26]
           else [])) ∧
    (weekday (Date y 12 25) = 5 → weekday (Date y 12 27) = 0) ∧
    (weekday (Date y 12 25) = 6 → weekday (Date y 12 26) = 0).
Proof. exact (bank_holidays_for_year_list y). Qed.

Lemma bank_holidays_exact_witness :
  ∃ may august,
    _last_weekday_of_month 2022 5 0 = Ok may ∧
    _last_weekday_of_month 2022 8 0 = Ok august ∧
    _bank_holidays_for_year 2022 =
      Ok ([may; august; Date 2022 12 25] ++
          (if weekday (Date 2022 12 25) =? 5 then [Date 2022 12 27]
           else if weekday (Date 2022 12 25) =? 6 then [Date 2022 12 26]
           else [])) ∧
    (weekday (Date 2022 12 25) = 5 → weekday (Date 2022 12 27) = 0) ∧
    (weekday (Date 2022 12 25) = 6 → weekday (Date 2022 12 26) = 0).
Proof.
  apply (bank_holidays_exact 2022). unfold MINYEAR, MAXYEAR. lia.
Defined.

(** Two days of one month on the same weekday, less than a week apart,
    are the same day. *)
Lemma same_weekday_same_day (y m d1 d2 : Z) :
  weekday (Date y m d1) = weekday (Date y m d2) → -7 < d1 - d2 < 7 →
  d1 = d2.
Proof.
  intros Hw Hd. pose proof (weekday_same_month y m d2 (d1 - d2)) as Hs.
  replace (d2 + (d1 - d2)) with d1 in Hs by lia.
  rewrite Hw in Hs. pose proof (weekday_range (Date y m d2)).
  revert Hs. Z.div_mod_to_equations. lia.
Qed.

(** X3: a date is a bank holiday exactly when it is a Monday among the
    last seven days of May or of August, or December 25, or a Monday
    December 26 or December 27 (the substitute after a Christmas on
    Sunday or on Saturday). *)
Theorem is_bank_holiday_iff (d : date) :
  valid_date d →
  ∃ holiday, _is_bank_holiday d = Ok holiday ∧
    (holiday = true ↔
     ((month d = 5 ∨ month d = 8) ∧ 25 ≤ day d ∧ weekday d = 0) ∨
     (month d = 12 ∧
      (day d = 25 ∨ ((day d = 26 ∨ day d = 27) ∧ weekday d = 0)))).
Proof.
  intros Hv. destruct (valid_date_fields d Hv) as (Hy & Hm & Hd).
  destruct (last_weekday_of_month_spec (year d) 5 0)
    as (j5 & Hj5 & E5 & Hv5 & Hw5); [done|lia|lia|].
  destruct (last_weekday_of_month_spec (year d) 8 0)
    as (j8 & Hj8 & E8 & Hv8 & Hw8); [done|lia|lia|].
  destruct (bank_holidays_for_year_list (year d) Hy)
    as (may & august & E5' & E8' & Eh & Hsat & Hsun).
  rewrite E5 in E5'. injection E5' as <-.
  rewrite E8 in E8'. injection E8' as <-.
  change (monthrange_last (year d) 5) with 31 in *.
  change (monthrange_last (year d) 8) with 31 in *.
  unfold _is_bank_holiday. rewrite Eh, bind_Ok.
  eexists. split; [reflexivity|].
  rewrite date_in_elem.
  pose proof (weekday_range (Date (year d) 12 25)) as Hw25.
  assert (Hdim : month d = 5 ∨ month d = 8 ∨ month d = 12 → day d ≤ 31).
  { revert Hd. unfold days_in_month.
    intros Hd [E|[E|E]]; rewrite E in Hd; simpl in Hd; lia. }
  destruct d as [y m dd]. simpl in *. split.
  - intros [E|[E|[E|Hsub]]].
    + injection E as <- <-. left. rewrite Hw5. lia.
    + injection E as <- <-. left. rewrite Hw8. lia.
    + injection E as <- <-. right. lia.
    + right. destruct (Z.eqb_spec (weekday (Date y 12 25)) 5) as [E5w|_].
      { destruct Hsub as [E|[]]. injection E as <- <-.
        rewrite (Hsat E5w). lia. }
      destruct (Z.eqb_spec (weekday (Date y 12 25)) 6) as [E6w|_].
      { destruct Hsub as [E|[]]. injection E as <- <-.
        rewrite (Hsun E6w). lia. }
      destruct Hsub.
  - intros [([Em|Em] & Hdd & Hw)|(Em & Hc)]; subst m.
    + left. f_equal. apply (same_weekday_same_day y 5); [|lia].
      by rewrite Hw, Hw5.
    + right; left. f_equal. apply (same_weekday_same_day y 8); [|lia].
      by rewrite Hw, Hw8.
    + destruct Hc as [->|[[-> | ->] Hw]]; [tauto| |].
      * pose proof (weekday_same_month y 12 25 1) as Hs.
        change (25 + 1) with 26 in Hs. rewrite Hw in Hs.
        assert (E6 : weekday (Date y 12 25) = 6)
          by (revert Hs; Z.div_mod_to_equations; lia).
        do 3 right. rewrite E6. simpl. tauto.
      * pose proof (weekday_same_month y 12 25 2) as Hs.
        change (25 + 2) with 27 in Hs. rewrite Hw in Hs.
        assert (E5w : weekday (Date y 12 25) = 5)
          by (revert Hs; Z.div_mod_to_equations; lia).
        do 3 right. rewrite E5w. simpl. tauto.
Qed.

Lemma is_bank_holiday_iff_witness :
  ∃ holiday, _is_bank_holiday (Date 2022 12 26) = Ok holiday ∧
    (holiday = true ↔
     ((month (Date 2022 12 26) = 5 ∨ month (Date 2022 12 26) = 8) ∧
      25 ≤ day (Date 2022 12 26) ∧ weekday (Date 2022 12 26) = 0) ∨
     (month (Date 2022 12 26) = 12 ∧
      (day (Date 2022 12 26) = 25 ∨
       ((day (Date 2022 12 26) = 26 ∨ day (Date 2022 12 26) = 27) ∧
        weekday (Date 2022 12 26) = 0)))).
Proof.
  apply (is_bank_holiday_iff (Date 2022 12 26)). vm_compute. reflexivity.
Defined.

(** The first day of the window is the first Monday after December 26:
    it is at most a week after it. *)
Lemma shutdown_window_first_monday (y : Z) :
  MINYEAR ≤ y ≤ MAXYEAR →
  ∃ w0 w1 w2,
    shutdown_window (Date y 12 26) = Ok [w0; w1; w2] ∧
    valid_date w0 ∧ valid_date w1 ∧ valid_date w2 ∧
    toordinal w0 =
      toordinal (Date y 12 27) + (- weekday (Date y 12 27)) mod 7 ∧
    toordinal w1 = toordinal w0 + 1 ∧ toordinal w2 = toordinal w0 + 2.
Proof.
  intros Hy.
  destruct (shutdown_window_spec y Hy)
    as (w0 & w1 & w2 & Ew & Hv0 & Hv1 & Hv2 & H0 & _ & _ & Hlt & Ho1 & Ho2).
  exists w0, w1, w2. do 4 (split; [done|]). split; [|done].
  (* the loop stops at the first Monday it meets *)
  assert (Hv27 : valid_date (Date y 12 27)) by (by apply valid_date_intro).
  assert (Hv26 : valid_date (Date y 12 (26 + 1))) by exact Hv27.
  revert Ew. unfold shutdown_window.
  rewrite (date_add_same_month y 12 26 1 ltac:(by apply valid_date_intro) Hv26),
    bind_Ok.
  change (26 + 1) with 27.
  destruct (seek_weekday WEEK 1 0 (Date y 12 27)) as [w|e] eqn:Es;
    [|discriminate].
  rewrite bind_Ok. intros Em.
  assert (Ew0 : date_add w 0 = Ok w0).
  { revert Em. simpl. destruct (date_add w 0); [|discriminate].
    rewrite bind_Ok. destruct (date_add w 1); [|discriminate].
    rewrite bind_Ok. destruct (date_add w 2); [|discriminate].
    simpl. by intros [= -> _ _]. }
  set (dist := (1 * (0 - weekday (Date y 12 27))) mod 7).
  assert (Hd : 0 ≤ dist < 7) by (apply Z.mod_pos_bound; lia).
  assert (Hr : 1 ≤ toordinal (Date y 12 27) + 1 * dist ≤ MAXORDINAL).
  { pose proof (toordinal_bounds _ Hv27). split; [lia|].
    destruct (Z.eq_dec y MAXYEAR) as [->|Hne].
    - vm_compute. discriminate.
    - assert (Hvn : valid_date (Date (y + 1) 1 4))
        by (apply valid_date_intro;
            [unfold MINYEAR, MAXYEAR in *; lia|done..]).
      apply toordinal_bounds in Hvn. revert Hvn.
      unfold toordinal; simpl. rewrite days_before_year_succ.
      unfold days_before_month. simpl. destruct (is_leap y); lia. }
  destruct (seek_weekday_spec WEEK 1 0 (Date y 12 27))
    as (w' & Es' & Hvw & _ & How);
    [by left|done|done|unfold WEEK; fold dist; lia|exact Hr|].
  rewrite Es in Es'. injection Es' as <-. fold dist in How.
  destruct (date_add_spec w 0) as (w0' & Ew0' & _ & Ho0 & _);
    [pose proof (toordinal_bounds _ Hvw); lia|].
  rewrite Ew0 in Ew0'. injection Ew0' as <-.
  rewrite Ho0, How. subst dist.
  replace (1 * (0 - weekday (Date y 12 27)))
    with (- weekday (Date y 12 27)) by lia.
  lia.
Qed.

(** X4: the shutdown test in closed form.  It returns on every date, and
    says yes exactly on December 24 to 26 and on a Monday, Tuesday or
    Wednesday of December whose Monday is December 27 or later; it never
    says yes in January. *)
Theorem christmas_shutdown_iff (d : date) :
  valid_date d →
  ∃ shut, _is_christmas_shutdown d = Ok shut ∧
    (shut = true ↔
     month d = 12 ∧
     (24 ≤ day d ≤ 26 ∨
      (26 < day d ∧ weekday d ≤ 2 ∧ 27 ≤ day d - weekday d))).
Proof.
  intros Hv. destruct (christmas_shutdown_spec d Hv) as (shut & Es & Hyes & Hno).
  exists shut. split; [exact Es|].
  destruct (valid_date_fields d Hv) as (Hy & Hm & Hd).
  destruct (Z.eq_dec (month d) 12) as [Em|Em].
  2: { split; [intros H; destruct (Hno H); lia|tauto]. }
  destruct (Z_le_gt_dec (day d) 26) as [Hle|Hgt].
  { split.
    - intros H. destruct (Hno H) as (_ & H24 & _). split; [done|]. left. lia.
    - intros [_ [H|H]]; [by apply Hyes|lia]. }
  (* December 27 to 31: the window decides *)
  assert (Hd31 : day d ≤ 31)
    by (revert Hd; unfold days_in_month; rewrite Em; simpl; lia).
  assert (Hv26 : valid_date (Date (year d) 12 26)) by (by apply valid_date_intro).
  assert (El : date_leb d (Date (year d) 12 26) = false).
  { unfold date_leb. simpl. rewrite Z.ltb_irrefl, Z.eqb_refl, Em. simpl.
    apply Z.leb_gt. lia. }
  destruct (shutdown_window_first_monday (year d) Hy)
    as (w0 & w1 & w2 & Ew & Hv0 & Hv1 & Hv2 & Ho0 & Ho1 & Ho2).
  assert (Es' : _is_christmas_shutdown d = Ok (date_in d [w0; w1; w2])).
  { unfold _is_christmas_shutdown.
    replace ((month d =? 12) && Z_in (day d) [24; 25; 26]) with false.
    - rewrite (date_new_valid _ _ _ Hv26), bind_Ok, El, Ew. reflexivity.
    - symmetry. apply andb_false_iff. right. unfold Z_in. simpl.
      rewrite !orb_false_iff, !Z.eqb_neq. lia. }
  assert (shut = date_in d [w0; w1; w2]) as -> by congruence.
  rewrite date_in_elem.
  pose proof (weekday_same_month (year d) 12 27 (day d - 27)) as Hwd.
  replace (27 + (day d - 27)) with (day d) in Hwd by lia.
  pose proof (weekday_range (Date (year d) 12 27)) as Hr27.
  assert (Eod : toordinal d = toordinal (Date (year d) 12 27) + (day d - 27))
    by (unfold toordinal; simpl; rewrite Em; lia).
  assert (Ed : d = Date (year d) 12 (day d))
    by (destruct d as [y m dd]; simpl in *; by subst m).
  rewrite <- Ed in Hwd.
  set (a := weekday (Date (year d) 12 27)) in *.
  split.
  - intros Hin. split; [done|]. right. split; [lia|].
    assert (toordinal d = toordinal w0 ∨ toordinal d = toordinal w1 ∨
            toordinal d = toordinal w2) as Ho
      by (destruct Hin as [<-|[<-|[<-|[]]]]; tauto).
    revert Ho Hwd Ho0. Z.div_mod_to_equations. lia.
  - intros [_ [H|(_ & Hw2 & Hmon)]]; [lia|].
    pose proof (weekday_range d) as Hrd.
    assert (toordinal d = toordinal w0 ∨ toordinal d = toordinal w1 ∨
            toordinal d = toordinal w2) as [Ho|[Ho|Ho]]
      by (revert Hwd Ho0 Hw2 Hmon; Z.div_mod_to_equations; lia).
    + left. symmetry. by apply toordinal_inj.
    + right; left. symmetry. by apply toordinal_inj.
    + right; right; left. symmetry. by apply toordinal_inj.
Qed.

Lemma christmas_shutdown_iff_witness :
  ∃ shut, _is_christmas_shutdown (Date 2021 12 29) = Ok shut ∧
    (shut = true ↔
     month (Date 2021 12 29) = 12 ∧
     (24 ≤ day (Date 2021 12 29) ≤ 26 ∨
      (26 < day (Date 2021 12 29) ∧ weekday (Date 2021 12 29) ≤ 2 ∧
       27 ≤ day (Date 2021 12 29) - weekday (Date 2021 12 29)))).
Proof.
  apply (christmas_shutdown_iff (Date 2021 12 29)). vm_compute. reflexivity.
Defined.

(** ** The resolver as a decision table *)

(** The requested-date string matters only through what the parser makes
    of it: two strings the parser treats alike resolve alike and commit
    alike. *)
Lemma resolve_by_parsed_date (s1 s2 : string) :
  _parse_date s1 = _parse_date s2 →
  _resolve_operating_day s1 = _resolve_operating_day s2 ∧
  ∀ dog size t customer phone L,
    book_grooming_appointment dog size s1 t customer phone L =
    book_grooming_appointment dog size s2 t customer phone L.
Proof.
  intros E.
  assert (Er : _resolve_operating_day s1 = _resolve_operating_day s2)
    by (unfold _resolve_operating_day; by rewrite E).
  split; [exact Er|]. intros. unfold book_grooming_appointment. by rewrite Er.
Qed.

(** A request for a Thursday, Friday, Saturday or Sunday. *)
Lemma resolve_date_closed_weekday (d : date) :
  valid_date d → 3 ≤ weekday d →
  resolve_date d = Ok (d, [weekday_closed_note d], false).
Proof.
  intros Hv Hw.
  assert (Ho : Z_in (weekday d) OPEN_WEEKDAYS = false)
    by (destruct (Z_in (weekday d) OPEN_WEEKDAYS) eqn:E; [|done];
        apply open_weekday_iff in E; lia).
  assert (Es : _shift_bank_holiday d = Ok (d, [], false))
    by (unfold _shift_bank_holiday; by rewrite Ho).
  destruct (ensure_operating_day_spec d false Hv) as (shut & _ & Ee).
  rewrite Ho in Ee. simpl in Ee.
  rewrite (resolve_date_compute _ _ _ _ _ Es Ee), Ho. reflexivity.
Qed.

(** X5: what the resolver returns on a parseable date, case by case.
    Thursday to Sunday: the date itself, closed, with the weekday note.
    Monday to Wednesday, not a holiday: the date itself, open with no
    note unless the shutdown test says yes, then closed with the shutdown
    note.  Monday to Wednesday, a holiday: the Thursday of the week with
    the shift note, open unless the shutdown test says yes on that
    Thursday, then closed with the weekday note of the Thursday. *)
Theorem resolve_operating_day_table (requested_date : string) (d : date) :
  _parse_date requested_date = Ok d →
  (3 ≤ weekday d →
   _resolve_operating_day requested_date =
     Ok (d, [weekday_closed_note d], false)) ∧
  (weekday d ≤ 2 → _is_bank_holiday d = Ok false →
   ∃ shut, _is_christmas_shutdown d = Ok shut ∧
     _resolve_operating_day requested_date =
       Ok (d, if shut then [shutdown_note d] else [], negb shut)) ∧
  (weekday d ≤ 2 → _is_bank_holiday d = Ok true →
   ∃ op shut,
     date_add d (3 - weekday d) = Ok op ∧
     _is_christmas_shutdown op = Ok shut ∧
     _resolve_operating_day requested_date =
       Ok (op,
           bank_holiday_note d op ::
             (if shut then [weekday_closed_note op] else []),
           negb shut)).
Proof.
  intros Ep. pose proof (parse_date_valid _ _ Ep) as Hv.
  rewrite (resolve_operating_day_parsed _ _ Ep).
  pose proof (weekday_range d) as Hr.
  pose proof (open_weekday_iff d) as Hopen.
  split; [|split].
  - intros Hw. by apply resolve_date_closed_weekday.
  - intros Hw Hh.
    assert (Ho : Z_in (weekday d) OPEN_WEEKDAYS = true) by (apply Hopen; lia).
    assert (Es : _shift_bank_holiday d = Ok (d, [], false))
      by (unfold _shift_bank_holiday; by rewrite Ho, Hh).
    destruct (ensure_operating_day_spec d false Hv) as (shut & Eshut & Ee).
    rewrite Ho in Ee. simpl in Ee. exists shut. split; [exact Eshut|].
    rewrite (resolve_date_compute _ _ _ _ _ Es Ee), Ho.
    destruct shut; reflexivity.
  - intros Hw Hh.
    destruct (shift_bank_holiday_spec d Hv)
      as [(_ & [Hn|Hn])|(op & Es & _ & _ & Ea & Hvo & _ & Hwo)];
      [lia|rewrite Hh in Hn; discriminate Hn|].
    destruct (ensure_operating_day_spec op true Hvo) as (shut & Eshut & Ee).
    exists op, shut. split; [exact Ea|]. split; [exact Eshut|].
    rewrite (resolve_date_compute _ _ _ _ _ Es Ee), Hwo.
    destruct shut; reflexivity.
Qed.

Lemma resolve_operating_day_table_witness :
  _resolve_operating_day "2024-07-11" =
    Ok (Date 2024 7 11, [weekday_closed_note (Date 2024 7 11)], false).
Proof.
  apply (proj1 (resolve_operating_day_table "2024-07-11" (Date 2024 7 11)
                  ltac:(vm_compute; reflexivity))).
  vm_compute. discriminate.
Defined.

(** X6: resolution is not idempotent.  When a request is shifted, the
    operating date it returns is a Thursday, and a request for that
    operating date itself resolves as closed, with the weekday note: the
    Thursday can only be reached through the holiday it replaces. *)
Theorem shifted_operating_date_resolves_closed
  (requested_date : string) (d op : date) (notes : list string)
  (is_open : bool) :
  _parse_date requested_date = Ok d →
  _resolve_operating_day requested_date = Ok (op, notes, is_open) →
  op ≠ d →
  _resolve_operating_day (isoformat op) =
    Ok (op, [weekday_closed_note op], false).
Proof.
  intros Ep Er Hne. pose proof (parse_date_valid _ _ Ep) as Hv.
  rewrite (resolve_operating_day_parsed _ _ Ep) in Er.
  destruct (shift_bank_holiday_spec d Hv)
    as [(Es & _)|(op' & Es & _ & _ & _ & Hvo & _ & Hw)].
  - destruct (ensure_operating_day_spec d false Hv) as (shut & _ & Ee).
    rewrite (resolve_date_compute _ _ _ _ _ Es Ee) in Er.
    injection Er as -> _ _. done.
  - destruct (ensure_operating_day_spec op' true Hvo) as (shut & _ & Ee).
    rewrite (resolve_date_compute _ _ _ _ _ Es Ee) in Er.
    injection Er as -> _ _.
    rewrite (resolve_operating_day_parsed _ _ (parse_isoformat op Hvo)).
    apply resolve_date_closed_weekday; [done|lia].
Qed.

Lemma shifted_operating_date_resolves_closed_witness :
  _resolve_operating_day (isoformat (Date 2024 5 30)) =
    Ok (Date 2024 5 30, [weekday_closed_note (Date 2024 5 30)], false).
Proof.
  apply (shifted_operating_date_resolves_closed "2024-05-27"
           (Date 2024 5 27) (Date 2024 5 30)
           [bank_holiday_note (Date 2024 5 27) (Date 2024 5 30)] true).
  - vm_compute. reflexivity.
  - vm_compute. reflexivity.
  - discriminate.
Defined.

(** ** The ledger and the two tools together *)

(** X7: the unit size only enters through its unit cost.  A query for a
    small dog and one for a medium dog return the same response, and
    every slot offered to a large dog is offered to a small one, in the
    same order. *)
Theorem available_slots_by_size (requested_date : string) (L : ledger) :
  get_available_slots requested_date small L =
  get_available_slots requested_date medium L ∧
  ∀ a_large a_small,
    snd (get_available_slots requested_date large L) = Ok a_large →
    snd (get_available_slots requested_date small L) = Ok a_small →
    sublist (av_available_slots a_large) (av_available_slots a_small).
Proof.
  destruct (_resolve_operating_day requested_date)
    as [[[op notes] is_open]|e] eqn:E.
  2: { rewrite !(get_available_slots_raise _ _ _ _ E). split; [done|].
       intros ? ? [=]. }
  rewrite !(get_available_slots_resolved _ _ _ _ _ _ E). split; [done|].
  simpl. intros al asm [= <-] [= <-]. destruct is_open; simpl; [|done].
  rewrite <- (list_filter_filter_l
                (fun slot => units_used L (isoformat op) slot + 2
                             ≤ CAPACITY_UNITS)
                (fun slot => units_used L (isoformat op) slot + 1
                             ≤ CAPACITY_UNITS)) by (intros; lia).
  apply sublist_filter.
Qed.

Lemma available_slots_by_size_witness :
  sublist
    ["08:30"; "09:00"; "09:30"; "10:00"; "11:00"; "11:30"; "12:00";
     "12:30"; "13:00"]
    SLOT_TIMES.
Proof.
  apply (proj2 (available_slots_by_size "2024-07-17" CURRENT_BOOKINGS)
           (Availability "2024-07-17" "2024-07-17"
              ["08:30"; "09:00"; "09:30"; "10:00"; "11:00"; "11:30"; "12:00";
               "12:30"; "13:00"] [])
           (Availability "2024-07-17" "2024-07-17" SLOT_TIMES []));
    vm_compute; reflexivity.
Defined.

(** X8: the query and the commit agree.  On the same ledger, a commit for
    (requested date, time, size) succeeds exactly when the time is in the
    list the query returns for that requested date and size. *)
Theorem commit_succeeds_iff_offered
  (dog : string) (size : dog_size) (requested_date requested_time : string)
  (customer phone : string) (L : ledger) :
  (∃ L' b,
     book_grooming_appointment dog size requested_date requested_time
                               customer phone L = (L', Ok b)) ↔
  (∃ a, snd (get_available_slots requested_date size L) = Ok a ∧
        requested_time ∈ av_available_slots a).
Proof.
  destruct (_resolve_operating_day requested_date)
    as [[[op notes] is_open]|e] eqn:E.
  2: { rewrite (book_raise _ _ _ _ _ _ _ _ E),
         (get_available_slots_raise _ _ _ _ E).
       split; [intros (? & ? & [=])|intros (? & [=] & _)]. }
  rewrite (get_available_slots_resolved _ _ _ _ _ _ E). simpl.
  destruct (book_resolved dog size requested_date requested_time customer
              phone L op notes is_open E)
    as (L' & r & -> & [(-> & -> & _)|[(-> & Hn & -> & _)|
                      [(-> & Hin & Hfull & -> & _)|(-> & Hin & Hroom & -> & _)]]]).
  - split; [intros (? & ? & [=])|].
    intros (a & [= <-] & Ha). simpl in Ha. by apply elem_of_nil in Ha.
  - split; [intros (? & ? & [=])|].
    intros (a & [= <-] & Ha). simpl in Ha.
    apply list_elem_of_filter in Ha as [_ Ha]. done.
  - split; [intros (? & ? & [=])|].
    intros (a & [= <-] & Ha). simpl in Ha.
    apply list_elem_of_filter in Ha as [Ha _]. lia.
  - split; [|by eauto]. intros _. eexists. split; [reflexivity|]. simpl.
    apply list_elem_of_filter. done.
Qed.

Lemma commit_succeeds_iff_offered_witness :
  ∃ L' b,
    book_grooming_appointment "Luna" medium "2024-07-17" "10:30"
      "Sarah Chen" "555-0123" CURRENT_BOOKINGS = (L', Ok b).
Proof.
  apply (proj2 (commit_succeeds_iff_offered "Luna" medium "2024-07-17"
                  "10:30" "Sarah Chen" "555-0123" CURRENT_BOOKINGS)).
  exists (Availability "2024-07-17" "2024-07-17" SLOT_TIMES []).
  split; [vm_compute; reflexivity|].
  apply string_in_elem. vm_compute. reflexivity.
Defined.

(** One attempt on an open day at a slot of the sequence: the count of
    that slot grows by the unit cost when there is room and stays
    otherwise, and no other count changes. *)
Lemma commit_open_slot
  (rq : booking_request) (L : ledger) (op : date) (notes : list string) :
  _resolve_operating_day (rq_requested_date rq) = Ok (op, notes, true) →
  rq_requested_time rq ∈ SLOT_TIMES →
  let key := isoformat op in
  let t := rq_requested_time rq in
  let u := DOG_SIZE_UNITS (rq_dog_size rq) in
  ∀ k x,
    units_used (fst (commit rq L)) k x =
    if decide (k = key ∧ x = t) then
      if decide (units_used L key t + u ≤ CAPACITY_UNITS)
      then units_used L key t + u else units_used L key t
    else units_used L k x.
Proof.
  intros E Hin key t u k x. unfold commit.
  destruct (book_resolved (rq_dog_name rq) (rq_dog_size rq) _
              (rq_requested_time rq) (rq_customer_name rq)
              (rq_contact_number rq) L _ _ _ E)
    as (L' & r & -> & [([=] & _)|[(_ & Hn & _)|
                      [(_ & _ & Hfull & _ & Hu)|(_ & _ & Hroom & _ & Hu)]]]);
    [done| |]; simpl; rewrite Hu.
  - case_decide as Hk; [|done]. destruct Hk as [-> ->].
    fold key t u in Hfull. by rewrite decide_False by lia.
  - fold key t u. case_decide; [|done].
    fold key t u in Hroom. by rewrite decide_True by done.
Qed.

(** X9: the same request attempted [n] times in a row, on an open day
    and at a slot of the sequence.  The attempts succeed until the next
    one would exceed the capacity, so the count ends at
    [used + units * min n ((CAPACITY_UNITS - used) / units)]: from an empty
    slot, two small or medium dogs or one large dog, however many
    attempts are made.  No other count changes. *)
Theorem repeated_commit_attempts
  (rq : booking_request) (n : nat) (L : ledger)
  (op : date) (notes : list string) :
  _resolve_operating_day (rq_requested_date rq) = Ok (op, notes, true) →
  rq_requested_time rq ∈ SLOT_TIMES →
  let key := isoformat op in
  let t := rq_requested_time rq in
  let u := DOG_SIZE_UNITS (rq_dog_size rq) in
  units_used L key t ≤ CAPACITY_UNITS →
  units_used (ledger_after (replicate n rq) L) key t =
    units_used L key t +
    u * Z.min (Z.of_nat n) ((CAPACITY_UNITS - units_used L key t) / u) ∧
  ∀ k x, ¬ (k = key ∧ x = t) →
         units_used (ledger_after (replicate n rq) L) k x = units_used L k x.
Proof.
  intros E Hin key t u. revert L.
  induction n as [|n IH]; intros L Hcap.
  { simpl. split; [|done].
    assert (0 ≤ (CAPACITY_UNITS - units_used L key t) / u)
      by (apply Z.div_pos; [lia|]; subst u;
          destruct (rq_dog_size rq); simpl; lia).
    rewrite Z.min_l by lia. lia. }
  pose proof (commit_open_slot rq L op notes E Hin) as Hstep.
  cbv zeta in Hstep. fold key t u in Hstep.
  change (ledger_after (replicate (S n) rq) L)
    with (ledger_after (replicate n rq) (fst (commit rq L))).
  assert (Hkey : units_used (fst (commit rq L)) key t =
                 if decide (units_used L key t + u ≤ CAPACITY_UNITS)
                 then units_used L key t + u else units_used L key t)
    by (rewrite Hstep; by rewrite decide_True).
  destruct (IH (fst (commit rq L))) as [IHk IHo].
  { rewrite Hkey. case_decide; lia. }
  split.
  - rewrite IHk, Hkey. clear IHk IHo Hkey Hstep IH. revert Hcap.
    unfold CAPACITY_UNITS. subst u.
    generalize (units_used L key t) as v. intros v Hcap.
    destruct (rq_dog_size rq); simpl DOG_SIZE_UNITS;
      destruct (decide _); Z.div_mod_to_equations; lia.
  - intros k x Hne. rewrite (IHo k x Hne), Hstep. by rewrite decide_False.
Qed.

Lemma repeated_commit_attempts_witness :
  units_used
    (ledger_after
       (replicate 5 (BookingRequest "Luna" small "2024-07-24" "09:00"
                                    "Sarah Chen" "555-0123"))
       CURRENT_BOOKINGS)
    "2024-07-24" "09:00" = 2.
Proof.
  destruct (repeated_commit_attempts
              (BookingRequest "Luna" small "2024-07-24" "09:00"
                              "Sarah Chen" "555-0123")
              5 CURRENT_BOOKINGS (Date 2024 7 24) [])
    as [H _].
  - vm_compute. reflexivity.
  - apply string_in_elem. vm_compute. reflexivity.
  - vm_compute. discriminate.
  - etransitivity; [exact H|]. vm_compute. reflexivity.
Defined.

(** Different dates have different ledger keys. *)
Lemma isoformat_inj (d1 d2 : date) :
  valid_date d1 → valid_date d2 → isoformat d1 = isoformat d2 → d1 = d2.
Proof.
  intros H1 H2 E. pose proof (parse_isoformat d1 H1) as P1.
  rewrite E, (parse_isoformat d2 H2) in P1. by injection P1.
Qed.

Lemma resolve_operating_day_valid
  (s : string) (op : date) (notes : list string) (is_open : bool) :
  _resolve_operating_day s = Ok (op, notes, is_open) → valid_date op.
Proof.
  unfold _resolve_operating_day.
  destruct (_parse_date s) as [d|e] eqn:Ep; [|discriminate].
  rewrite bind_Ok. intros Er.
  destruct (resolve_date_spec d (parse_date_valid _ _ Ep))
    as (op' & sn & cl & fo & _ & _ & Er' & Hv & _).
  rewrite Er in Er'. by injection Er' as <- _ _.
Qed.

(** X10: a commit attempt, whatever its outcome, changes no count of any
    date other than the operating date it resolves to: the ledger keys of
    two different dates never coincide. *)
Theorem commit_leaves_other_dates
  (dog : string) (size : dog_size) (requested_date requested_time : string)
  (customer phone : string) (L : ledger)
  (op : date) (notes : list string) (is_open : bool) (other : date) :
  _resolve_operating_day requested_date = Ok (op, notes, is_open) →
  valid_date other → other ≠ op →
  ∀ slot,
    units_used
      (fst (book_grooming_appointment dog size requested_date requested_time
                                      customer phone L))
      (isoformat other) slot =
    units_used L (isoformat other) slot.
Proof.
  intros E Hvo Hne slot.
  pose proof (resolve_operating_day_valid _ _ _ _ E) as Hv.
  assert (Hk : isoformat other ≠ isoformat op)
    by (intros Ek; apply Hne; by apply isoformat_inj).
  destruct (book_resolved dog size requested_date requested_time customer
              phone L op notes is_open E)
    as (L' & r & -> & [(_ & _ & ->)|[(_ & _ & _ & ->)|
                      [(_ & _ & _ & _ & Hu)|(_ & _ & _ & _ & Hu)]]]);
    simpl; [done|done|by rewrite Hu|].
  rewrite Hu. rewrite decide_False; [done|]. by intros [? _].
Qed.

Lemma commit_leaves_other_dates_witness :
  units_used
    (fst (book_grooming_appointment "Luna" medium "2024-07-17" "10:30"
                                    "Sarah Chen" "555-0123"
                                    CURRENT_BOOKINGS))
    (isoformat (Date 2024 7 10)) "09:00" =
  units_used CURRENT_BOOKINGS (isoformat (Date 2024 7 10)) "09:00".
Proof.
  apply (commit_leaves_other_dates "Luna" medium "2024-07-17" "10:30"
           "Sarah Chen" "555-0123" CURRENT_BOOKINGS (Date 2024 7 17) [] true
           (Date 2024 7 10)).
  - vm_compute. reflexivity.
  - vm_compute. reflexivity.
  - discriminate.
Defined.

(** Commit attempts lower no count. *)
Lemma ledger_after_mono (rqs : list booking_request) (L : ledger) :
  ∀ k x, units_used L k x ≤ units_used (ledger_after rqs L) k x.
Proof.
  revert L. induction rqs as [|rq rqs IH]; intros L k x; [simpl; lia|].
  change (ledger_after (rq :: rqs) L)
    with (ledger_after rqs (fst (commit rq L))).
  etransitivity; [apply (proj1 (commit_step rq L))|apply IH].
Qed.

(** X11: once a commit has succeeded at a slot, on a ledger with no
    negative count, no query for that requested date made afterwards, at
    once or after any further commit attempts, offers that slot to a
    large dog; and once a large dog is booked, it is offered to no
    one. *)
Theorem booked_slot_not_offered
  (dog : string) (size size' : dog_size)
  (requested_date requested_time : string) (customer phone : string)
  (L L' : ledger) (b : booking) (later : list booking_request)
  (a : availability) :
  (∀ k x, 0 ≤ units_used L k x) →
  book_grooming_appointment dog size requested_date requested_time
                            customer phone L = (L', Ok b) →
  size = large ∨ size' = large →
  snd (get_available_slots requested_date size' (ledger_after later L'))
    = Ok a →
  ¬ (requested_time ∈ av_available_slots a).
Proof.
  intros Hpos Eb Hsz Ea Hin.
  destruct (_resolve_operating_day requested_date)
    as [[[op notes] is_open]|e] eqn:E.
  2: { rewrite (book_raise _ _ _ _ _ _ _ _ E) in Eb. discriminate Eb. }
  rewrite (get_available_slots_resolved _ _ _ _ _ _ E) in Ea.
  destruct (book_resolved dog size requested_date requested_time customer
              phone L op notes is_open E)
    as (L'' & r & Eb' & H).
  rewrite Eb in Eb'. injection Eb' as <- <-.
  destruct H as [(_ & [=] & _)|[(_ & _ & [=] & _)|
                [(_ & _ & _ & [=] & _)|(-> & _ & _ & _ & Hu)]]].
  simpl in Ea. injection Ea as <-. simpl in Hin.
  apply list_elem_of_filter in Hin as [Hroom _].
  pose proof (ledger_after_mono later L' (isoformat op) requested_time) as Hm.
  rewrite Hu in Hm. rewrite decide_True in Hm by done.
  specialize (Hpos (isoformat op) requested_time).
  pose proof (units_size_range size). pose proof (units_size_range size').
  destruct Hsz as [-> | ->]; simpl in *; unfold CAPACITY_UNITS in *; lia.
Qed.

Lemma booked_slot_not_offered_witness :
  ¬ ("09:00" ∈
     ["08:30"; "09:30"; "10:00"; "10:30"; "11:00"; "11:30"; "12:00";
      "12:30"; "13:00"]).
Proof.
  pose (attempt := book_grooming_appointment "Luna" medium "2024-07-24"
                     "09:00" "Sarah Chen" "555-0123" CURRENT_BOOKINGS).
  apply (booked_slot_not_offered "Luna" medium large "2024-07-24" "09:00"
           "Sarah Chen" "555-0123" CURRENT_BOOKINGS (fst attempt)
           (Booking "Luna" medium "2024-07-24" "09:00" "Sarah Chen"
                    "555-0123" "Booked" [])
           [BookingRequest "Rex" small "2024-07-24" "09:15" "Sam Poe"
                           "555-0100"]
           (Availability "2024-07-24" "2024-07-24"
              ["08:30"; "09:30"; "10:00"; "10:30"; "11:00"; "11:30"; "12:00";
               "12:30"; "13:00"] [])).
  - intros k x. apply current_bookings_within_capacity.
  - rewrite (surjective_pairing attempt) at 1. f_equal.
  - right. reflexivity.
  - vm_compute. reflexivity.
Defined.

(** ** The stub's booking handler *)

(** X12: the handler, on fields whose date parses.  With a size that is
    a key of [DOG_SIZE_UNITS] it never lets a booking error of the tools
    through: when the query offers no slot (closed day or no capacity) it
    raises its own [RuntimeError] and writes nothing; otherwise it books
    the requested time if that is offered and the first offered slot if
    not, returns the booking with status Booked on the operating date, and
    adds the unit cost to that date and slot only.  With a size that is
    not a key (the text as typed, such as [Large]) it writes nothing and
    raises: its [RuntimeError] on a closed day, the [KeyError] of the
    query on an open day. *)
Theorem handle_booking_request_outcomes
  (rq : prompt_fields) (L : ledger) (d : date) :
  _parse_date (pf_requested_date rq) = Ok d →
  (∀ size, dog_size_of_key (pf_dog_size rq) = Some size →
   ∃ a,
     get_available_slots (pf_requested_date rq) size L = (L, Ok a) ∧
     match av_available_slots a with
     | [] =>
         _handle_booking_request rq L =
           (L, inl (RuntimeError no_slots_message))
     | first :: _ =>
         let slot :=
           if string_in (pf_requested_time rq) (av_available_slots a)
           then pf_requested_time rq else first in
         ∃ L',
           _handle_booking_request rq L =
             (L', inr (Booking (pf_dog_name rq) size
                               (av_operating_date a) slot
                               (pf_customer_name rq) (pf_contact_number rq)
                               "Booked" (av_notes a))) ∧
           units_used L' (av_operating_date a) slot =
             units_used L (av_operating_date a) slot + DOG_SIZE_UNITS size ∧
           ∀ k x, ¬ (k = av_operating_date a ∧ x = slot) →
                  units_used L' k x = units_used L k x
     end) ∧
  (dog_size_of_key (pf_dog_size rq) = None →
   ∃ op notes is_open,
     _resolve_operating_day (pf_requested_date rq) = Ok (op, notes, is_open) ∧
     _handle_booking_request rq L =
       (L, inl (if is_open then KeyError (pf_dog_size rq)
                else RuntimeError no_slots_message))).
Proof.
  intros Ep.
  destruct (resolve_date_spec d (parse_date_valid _ _ Ep))
    as (op & sn & cl & fo & _ & _ & Er & _).
  rewrite <- (resolve_operating_day_parsed _ _ Ep) in Er.
  set (is_open := is_empty cl && (fo || Z_in (weekday op) OPEN_WEEKDAYS)) in Er.
  split.
  2: { intros Ek. exists op, (sn ++ cl), is_open. split; [exact Er|].
       unfold _handle_booking_request, get_available_slots_untyped.
       rewrite Ek, Er. by destruct is_open. }
  intros size Ek.
  pose proof (get_available_slots_resolved _ size L _ _ _ Er) as Eq.
  eexists. split; [exact Eq|].
  unfold _handle_booking_request, get_available_slots_untyped.
  rewrite Ek, Eq. clear Eq.
  destruct is_open eqn:Eo; simpl av_available_slots; [|reflexivity].
  set (offered := filter _ SLOT_TIMES).
  destruct offered as [|first rest] eqn:Eoff; [reflexivity|].
  cbv zeta. simpl av_operating_date. simpl av_notes.
  set (slot := if string_in (pf_requested_time rq) (first :: rest)
               then pf_requested_time rq else first).
  assert (Hslot : slot ∈ offered).
  { subst slot. rewrite Eoff.
    destruct (string_in (pf_requested_time rq) (first :: rest)) eqn:Ein.
    - by apply string_in_elem.
    - apply list_elem_of_here. }
  assert (Echosen :
    (if negb (string_in (pf_requested_time rq) (first :: rest))
     then inr first else inr (pf_requested_time rq))
    = (inr slot : runner_exn + string))
    by (subst slot; by destruct (string_in _ _)).
  rewrite Echosen. clear Echosen.
  apply list_elem_of_filter in Hslot as [Hroom Hin].
  unfold book_grooming_appointment_untyped. rewrite Ek.
  destruct (book_resolved (pf_dog_name rq) size
              (pf_requested_date rq) slot (pf_customer_name rq)
              (pf_contact_number rq) L op (sn ++ cl) true Er)
    as (L' & r & -> & [([=] & _)|[(_ & Hn & _)|[(_ & _ & Hfull & _)|
                      (_ & _ & _ & -> & Hu)]]]); [done|lia|].
  exists L'. split; [reflexivity|]. split.
  - rewrite Hu. by rewrite decide_True.
  - intros k x Hne. rewrite Hu. by rewrite decide_False.
Qed.

Lemma handle_booking_request_outcomes_witness :
  ∃ L',
    _handle_booking_request
      (PromptFields "Rex" "large" "2024-07-10" "09:00" "Sam Poe" "555-0100")
      CURRENT_BOOKINGS =
      (L', inr (Booking "Rex" large "2024-07-10" "08:30" "Sam Poe"
                        "555-0100" "Booked" [])) ∧
    units_used L' "2024-07-10" "08:30" =
      units_used CURRENT_BOOKINGS "2024-07-10" "08:30" + 2.
Proof.
  destruct (proj1 (handle_booking_request_outcomes
              (PromptFields "Rex" "large" "2024-07-10" "09:00" "Sam Poe"
                            "555-0100")
              CURRENT_BOOKINGS (Date 2024 7 10)
              ltac:(vm_compute; reflexivity)) large eq_refl)
    as (a & Ea & H).
  assert (Es : a = Availability "2024-07-10" "2024-07-10"
                 ["08:30"; "09:30"; "10:00"; "10:30"; "11:00"; "11:30";
                  "12:00"; "12:30"; "13:00"] []).
  { assert (Hs : snd (get_available_slots "2024-07-10" large CURRENT_BOOKINGS)
                 = Ok a) by (simpl in Ea; by rewrite Ea).
    vm_compute in Hs. by injection Hs as <-. }
  subst a. destruct H as (L' & E & Hu & _).
  exists L'. split; [exact E|exact Hu].
Defined.

(** X13: the handler keeps the ledger within capacity and lowers no
    count, on every request, whether it books, finds no slot, is given a
    size that is not a key, or the requested date does not parse. *)
Theorem handle_booking_request_invariant
  (rq : prompt_fields) (L : ledger) :
  (within_capacity L → within_capacity (fst (_handle_booking_request rq L))) ∧
  ∀ day_key slot,
    units_used L day_key slot ≤
    units_used (fst (_handle_booking_request rq L)) day_key slot.
Proof.
  assert (fst (_handle_booking_request rq L) = L ∨
          ∃ rq', fst (_handle_booking_request rq L) = fst (commit rq' L))
    as [-> | (rq' & ->)].
  { unfold _handle_booking_request, get_available_slots_untyped,
      book_grooming_appointment_untyped.
    destruct (_resolve_operating_day (pf_requested_date rq))
      as [[[op notes] is_open]|e] eqn:E;
      destruct (dog_size_of_key (pf_dog_size rq)) as [size|] eqn:Ek.
    - rewrite (get_available_slots_resolved _ _ _ _ _ _ E).
      match goal with
      | |- context [match ?c with inl _ => _ | inr _ => _ end] =>
          destruct c as [e|slot]
      end; [by left|].
      right.
      exists (BookingRequest (pf_dog_name rq) size
                (pf_requested_date rq) slot (pf_customer_name rq)
                (pf_contact_number rq)).
      unfold commit. cbn [rq_dog_name rq_dog_size rq_requested_date
                          rq_requested_time rq_customer_name
                          rq_contact_number].
      by destruct (book_grooming_appointment _ _ _ _ _ _ L) as [L2 [b|e]].
    - left. destruct is_open; cbn [negb]; cbv iota; [done|].
      cbn [av_available_slots string_in existsb negb]. done.
    - rewrite (get_available_slots_raise _ _ _ _ E). by left.
    - by left. }
  - split; [done|]. intros; lia.
  - destruct (commit_step rq' L) as [Hmono Hcap]. split; [exact Hcap|exact Hmono].
Qed.

Lemma handle_booking_request_invariant_witness :
  within_capacity
    (fst (_handle_booking_request
            (PromptFields "Rex" "large" "2024-07-10" "09:00" "Sam Poe"
                          "555-0100")
            CURRENT_BOOKINGS)).
Proof.
  apply (proj1 (handle_booking_request_invariant _ CURRENT_BOOKINGS)).
  exact current_bookings_within_capacity.
Defined.

(** X14: the date strings the tools return parse back.  The
    [operating_date] of an availability response and the [date] of a
    booking are the ISO form of the operating date, and [_parse_date]
    reads each of them as that date. *)
Theorem returned_dates_parse_back
  (dog : string) (size : dog_size) (requested_date requested_time : string)
  (customer phone : string) (L : ledger) :
  (∀ a, snd (get_available_slots requested_date size L) = Ok a →
        ∃ op notes is_open,
          _resolve_operating_day requested_date = Ok (op, notes, is_open) ∧
          av_operating_date a = isoformat op ∧
          _parse_date (av_operating_date a) = Ok op) ∧
  (∀ b, snd (book_grooming_appointment dog size requested_date requested_time
                                       customer phone L) = Ok b →
        ∃ op notes,
          _resolve_operating_day requested_date = Ok (op, notes, true) ∧
          bk_date b = isoformat op ∧
          _parse_date (bk_date b) = Ok op).
Proof.
  destruct (_resolve_operating_day requested_date)
    as [[[op notes] is_open]|e] eqn:E.
  2: { rewrite (get_available_slots_raise _ _ _ _ E),
         (book_raise _ _ _ _ _ _ _ _ E). split; intros ? [=]. }
  pose proof (resolve_operating_day_valid _ _ _ _ E) as Hv.
  split.
  - intros a Ea. rewrite (get_available_slots_resolved _ _ _ _ _ _ E) in Ea.
    simpl in Ea. exists op, notes, is_open. split; [done|].
    destruct is_open; injection Ea as <-; cbn [av_operating_date];
      (split; [reflexivity|by apply parse_isoformat]).
  - intros b Eb.
    destruct (book_resolved dog size requested_date requested_time customer
                phone L op notes is_open E)
      as (L' & r & Eb' & H).
    rewrite Eb' in Eb. simpl in Eb. subst r.
    destruct H as [(_ & [=] & _)|[(_ & _ & [=] & _)|
                  [(_ & _ & _ & [=] & _)|(-> & _ & _ & [= ->] & _)]]].
    exists op, notes. cbn [bk_date]. split; [reflexivity|].
    split; [reflexivity|by apply parse_isoformat].
Qed.

Lemma returned_dates_parse_back_witness :
  ∃ op notes is_open,
    _resolve_operating_day "2024-05-27" = Ok (op, notes, is_open) ∧
    "2024-05-30" = isoformat op ∧ _parse_date "2024-05-30" = Ok op.
Proof.
  apply (proj1 (returned_dates_parse_back "Luna" small "2024-05-27" "09:00"
                  "Sarah Chen" "555-0123" CURRENT_BOOKINGS)
           (Availability "2024-05-27" "2024-05-30" SLOT_TIMES
              ["2024-05-27 is a bank holiday, booking moved to 2024-05-30."])).
  vm_compute. reflexivity.
Defined.
